(** * Filter-by-value transformer: a shallow embedding and its properties

    Source: packages/grafana-data/src/transformations/transformers/filterByValue.ts

    The transformer walks a list of data frames; for each frame it runs every
    configured value filter over the rows of the field the filter names,
    recording a per-row decision in the JavaScript array [includeThisRow],
    and then copies the rows whose decision is truthy into a new frame.

    The embedding keeps the shape of the source: the three nested loops are
    three functions, the decision array is threaded through them as explicit
    state, and the one throwing call (the registry lookup) lives in a small
    error monad. *)

From stdpp Require Import base option list strings gmap.

Open Scope string_scope.
Open Scope list_scope.
Open Scope nat_scope.

(** ** Values, vectors, fields and frames *)

(** A cell of a field.  The transformer never inspects a cell; it only hands
    it to a filter's [test] and copies it.  [VUndefined] is what a JavaScript
    array read yields outside the array. *)
Inductive Value : Type :=
  | VUndefined
  | VNull
  | VNumber (n : Z)
  | VString (s : string)
  | VBoolean (b : bool).

#[global] Instance Value_eq_dec : EqDecision Value.
Proof. solve_decision. Defined.

(** [Record<string, any>]: an open key/value bag. *)
Abbreviation KeyValue := (list (string * Value)).

Module FieldType.
Inductive t : Type := time | number | string | boolean | other.

#[global] Instance eq_dec : EqDecision t.
Proof. solve_decision. Defined.
End FieldType.

(** Modelled from the spec: the vector class [ArrayVector]
    (vector/ArrayVector.ts is not among the sources).  The spec describes a
    field's values as a sequence indexed from 0; the class wraps a JavaScript
    array, [get] reads [buffer[index]] (so [undefined] outside the buffer)
    and [add] pushes at the end. *)
Module ArrayVector.
Abbreviation t := (list Value).

Definition get (buffer : t) (index : nat) : Value :=
  default VUndefined (buffer !! index).

Definition add (buffer : t) (value : Value) : t := buffer ++ [value].
End ArrayVector.

Module Field.
Record t : Type := mk {
  name : string;
  type : FieldType.t;
  config : KeyValue;
  values : ArrayVector.t;
}.

#[global] Instance eq_dec : EqDecision t.
Proof. solve_decision. Defined.
End Field.

(** The members of [DataFrame] that the transformer reads and writes. *)
Module DataFrame.
Record t : Type := mk {
  fields : list Field.t;
  length : nat;
}.

#[global] Instance eq_dec : EqDecision t.
Proof. solve_decision. Defined.
End DataFrame.

(** ** Filter configuration and options *)

(** [ValueFilterID] is a string enum; a stored configuration can hold any
    string. *)
Abbreviation ValueFilterID := string.

Module ValueFilter.
Record t : Type := mk {
  fieldName : option string;
  filterExpression : option string;
  filterExpression2 : option string;
  filterArgs : KeyValue;
  filterType : ValueFilterID;
}.
End ValueFilter.

(** [type] and [match] are strings in the source; [None] stands for a
    property that is not set ([undefined]). *)
Module Options.
Record t : Type := mk {
  valueFilters : list ValueFilter.t;
  type : option string;
  match_ : option string;
}.
End Options.

(** ** The predicate registry *)

(** The argument of [getInstance]. *)
Module InstanceOptions.
Record t : Type := mk {
  filterExpression : option string;
  filterExpression2 : option string;
  filterArgs : KeyValue;
  fieldType : FieldType.t;
}.
End InstanceOptions.

(** The part of a filter instance the transformer uses. *)
Record ValueFilterInstance : Type := {
  isValid : bool;
  test : Value → bool;
}.

Record ValueFilterInfo : Type := {
  id : ValueFilterID;
  getInstance : InstanceOptions.t → ValueFilterInstance;
}.

Inductive Error : Type :=
  | UnknownPredicateKind (kind : ValueFilterID).

(** A computation that either returns or throws. *)
Inductive Result (A : Type) : Type :=
  | Ok (a : A)
  | Throw (e : Error).
Arguments Ok {A} a.
Arguments Throw {A} e.

Definition bind {A B : Type} (r : Result A) (k : A → Result B) : Result B :=
  match r with
  | Ok a => k a
  | Throw e => Throw e
  end.

Notation "x <- r ;;; k" := (bind r (fun x => k))
  (at level 100, r at next level, right associativity).

(** Modelled from the spec: the registry of predicate kinds
    ([valueFiltersRegistry] and its class are not among the sources).
    "[get(kind)] returns the descriptor or fails with [UnknownPredicateKind]
    if [kind] was never registered". *)
Module Registry.
Abbreviation t := (gmap ValueFilterID ValueFilterInfo).

Definition get (registry : t) (kind : ValueFilterID) : Result ValueFilterInfo :=
  match registry !! kind with
  | Some info => Ok info
  | None => Throw (UnknownPredicateKind kind)
  end.
End Registry.

(** ** The decision array *)

(** [includeThisRow] is a plain JavaScript array.  An element that was never
    assigned (a hole, or an index past the end) reads as [undefined]; both
    are [None] here. *)
Module JsArray.
Abbreviation t := (list (option bool)).

(** [a[i] = v]: overwrite in range, otherwise grow the array up to [i],
    leaving holes in between. *)
Definition set (a : t) (i : nat) (v : bool) : t :=
  if decide (i < length a) then <[i := Some v]> a
  else a ++ replicate (i - length a) None ++ [Some v].

(** [a[i]]: [None] is [undefined]. *)
Definition get (a : t) (i : nat) : option bool := default None (a !! i).

(** [if (a[i])]: only an assigned [true] is truthy. *)
Definition truthy (a : t) (i : nat) : bool :=
  match get a i with
  | Some true => true
  | _ => false
  end.
End JsArray.

(** ** The transformer *)

(** What the module imports from outside the sources: [getFieldDisplayName]
    (field/fieldState), which the transformer calls with the field alone, and
    the registry instance [valueFiltersRegistry]. *)
Class Environment : Type := {
  getFieldDisplayName : Field.t → string;
  valueFiltersRegistry : Registry.t;
}.

Section Transformer.

Context {environment : Environment}.

(** Lines 62-69: the first field whose display name is the filter's
    [fieldName]; a [null] name equals no display name. *)
Definition findField (frame : DataFrame.t) (filter : ValueFilter.t)
    : option Field.t :=
  List.find
    (λ f, bool_decide
            (Some (getFieldDisplayName f) = ValueFilter.fieldName filter))
    (DataFrame.fields frame).

(** Lines 76-81: the argument handed to [getInstance]. *)
Definition instanceOptions (filter : ValueFilter.t) (field : Field.t)
    : InstanceOptions.t :=
  InstanceOptions.mk
    (ValueFilter.filterExpression filter)
    (ValueFilter.filterExpression2 filter)
    (ValueFilter.filterArgs filter)
    (Field.type field).

Section Rows.
Variables (includeRow : bool) (filterIndex : nat).
Variables (filterInstance : ValueFilterInstance) (field : Field.t).

(** Lines 90-94, the body of the row loop under [matchAll]. *)
Definition testRowAll (includeThisRow : JsArray.t) (row : nat) : JsArray.t :=
  if negb (test filterInstance (ArrayVector.get (Field.values field) row))
  then JsArray.set includeThisRow row (negb includeRow)
  else if decide (filterIndex = 0)
       then JsArray.set includeThisRow row includeRow
       else includeThisRow.

(** Lines 99-103, the body of the row loop otherwise. *)
Definition testRowAny (includeThisRow : JsArray.t) (row : nat) : JsArray.t :=
  if test filterInstance (ArrayVector.get (Field.values field) row)
  then JsArray.set includeThisRow row includeRow
  else if decide (filterIndex = 0)
       then JsArray.set includeThisRow row (negb includeRow)
       else includeThisRow.

(** Lines 87-105: [for (let row = 0; row < frame.length; row++)]. *)
Definition testRows (matchAll : bool) (frame : DataFrame.t)
    (includeThisRow : JsArray.t) : JsArray.t :=
  if matchAll
  then foldl testRowAll includeThisRow (seq 0 (DataFrame.length frame))
  else foldl testRowAny includeThisRow (seq 0 (DataFrame.length frame)).
End Rows.

(** Lines 59-106: the loop over [options.valueFilters], entered at
    [filterIndex] with the filters from that index on. *)
Fixpoint filterLoop (includeRow matchAll : bool) (frame : DataFrame.t)
    (filterIndex : nat) (filters : list ValueFilter.t)
    (includeThisRow : JsArray.t) : Result JsArray.t :=
  match filters with
  | [] => Ok includeThisRow
  | filter :: rest =>
      match findField frame filter with
      | None =>
          filterLoop includeRow matchAll frame (S filterIndex) rest includeThisRow
      | Some field =>
          info <- Registry.get valueFiltersRegistry (ValueFilter.filterType filter) ;;;
          let filterInstance := getInstance info (instanceOptions filter field) in
          if negb (isValid filterInstance)
          then filterLoop includeRow matchAll frame (S filterIndex) rest includeThisRow
          else filterLoop includeRow matchAll frame (S filterIndex) rest
                 (testRows includeRow filterIndex filterInstance field
                    matchAll frame includeThisRow)
      end
  end.

(** Lines 109-118: a copy of the field with a fresh, empty vector. *)
Definition skeleton (field : Field.t) : Field.t :=
  Field.mk (Field.name field) (Field.type field) (Field.config field) [].

(** Lines 124-126: append row [row] of every field of [frame] to the
    field at the same position of [filteredFields]. *)
Definition copyRow (frame : DataFrame.t) (filteredFields : list Field.t)
    (row : nat) : list Field.t :=
  zip_with
    (λ filtered field,
       Field.mk (Field.name filtered) (Field.type filtered) (Field.config filtered)
         (ArrayVector.add (Field.values filtered)
            (ArrayVector.get (Field.values field) row)))
    filteredFields (DataFrame.fields frame).

(** Lines 123-128, the body of the copying loop; the state is
    [(filteredFields, dataLength)]. *)
Definition copyStep (frame : DataFrame.t) (includeThisRow : JsArray.t)
    (state : list Field.t * nat) (row : nat) : list Field.t * nat :=
  if JsArray.truthy includeThisRow row
  then (copyRow frame state.1 row, S state.2)
  else state.

(** Lines 108-134: the frame pushed onto [processed]. *)
Definition filteredFrame (frame : DataFrame.t) (includeThisRow : JsArray.t)
    : DataFrame.t :=
  let state :=
    foldl (copyStep frame includeThisRow)
      (skeleton <$> DataFrame.fields frame, 0)
      (seq 0 (length includeThisRow)) in
  DataFrame.mk state.1 state.2.

(** Lines 58-135: the loop over the frames.  [includeThisRow] is declared
    before the loop (line 56) and is carried from one frame to the next. *)
Fixpoint frameLoop (includeRow matchAll : bool) (filters : list ValueFilter.t)
    (frames : list DataFrame.t) (processed : list DataFrame.t)
    (includeThisRow : JsArray.t) : Result (list DataFrame.t * JsArray.t) :=
  match frames with
  | [] => Ok (processed, includeThisRow)
  | frame :: rest =>
      decided <- filterLoop includeRow matchAll frame 0 filters includeThisRow ;;;
      frameLoop includeRow matchAll filters rest
        (processed ++ [filteredFrame frame decided]) decided
  end.

(** Lines 45-143. *)
Definition transformer (options : Options.t) (data : list DataFrame.t)
    : Result (list DataFrame.t) :=
  let includeRow := bool_decide (Options.type options = Some "include") in
  let matchAll := bool_decide (Options.match_ options = Some "all") in
  if decide (length (Options.valueFilters options) = 0) then Ok data
  else
    state <- frameLoop includeRow matchAll (Options.valueFilters options) data [] [] ;;;
    if decide (0 < length state.2) then Ok state.1 else Ok data.

(** ** How a filter stands towards a frame *)

(** The filter names a field of the frame, but its kind is not in the
    registry: the lookup of line 76 throws. *)
Definition unknownKind (frame : DataFrame.t) (filter : ValueFilter.t) : Prop :=
  ∃ field,
    findField frame filter = Some field ∧
    valueFiltersRegistry !! ValueFilter.filterType filter = None.

(** The filter reaches the row loop of the frame: it names a field, its
    kind is registered and the instance is valid. *)
Definition applicable (frame : DataFrame.t) (filter : ValueFilter.t) : Prop :=
  ∃ field info,
    findField frame filter = Some field ∧
    valueFiltersRegistry !! ValueFilter.filterType filter = Some info ∧
    isValid (getInstance info (instanceOptions filter field)) = true.

(** The filter is skipped for the frame: it names no field of it, or it
    names one and its instance is not valid. *)
Definition skipped (frame : DataFrame.t) (filter : ValueFilter.t) : Prop :=
  ∀ field,
    findField frame filter = Some field →
    ∃ info,
      valueFiltersRegistry !! ValueFilter.filterType filter = Some info ∧
      isValid (getInstance info (instanceOptions filter field)) = false.

(** The filter, where it reaches the row loop of the frame, holds of row
    [row]. *)
Definition passes (frame : DataFrame.t) (row : nat) (filter : ValueFilter.t)
    : Prop :=
  ∀ field info,
    findField frame filter = Some field →
    valueFiltersRegistry !! ValueFilter.filterType filter = Some info →
    isValid (getInstance info (instanceOptions filter field)) = true →
    test (getInstance info (instanceOptions filter field))
      (ArrayVector.get (Field.values field) row) = true.

(** The display name of a field does not depend on the values it holds. *)
Definition displayNameIgnoresValues : Prop :=
  ∀ field values,
    getFieldDisplayName
      (Field.mk (Field.name field) (Field.type field) (Field.config field) values) =
    getFieldDisplayName field.

End Transformer.

(** ** Rows, and the closed form of the copying loop *)

(** Row [row] of a frame: the cell of every field at that index. *)
Definition rowAt (frame : DataFrame.t) (row : nat) : list Value :=
  (λ field, ArrayVector.get (Field.values field) row)
    <$> DataFrame.fields frame.

(** The row sequence of a frame. *)
Definition rows (frame : DataFrame.t) : list (list Value) :=
  rowAt frame <$> seq 0 (DataFrame.length frame).

(** The row indices the copying loop keeps, in the order it visits them. *)
Definition selected (includeThisRow : JsArray.t) : list nat :=
  filter (λ row, JsArray.truthy includeThisRow row = true)
    (seq 0 (length includeThisRow)).

(** A field cut down to the cells at the given indices. *)
Definition project (indices : list nat) (field : Field.t) : Field.t :=
  Field.mk (Field.name field) (Field.type field) (Field.config field)
    ((λ row, ArrayVector.get (Field.values field) row) <$> indices).

(** The frame invariant of the data model: every field holds exactly
    [length] values. *)
Definition wellFormed (frame : DataFrame.t) : Prop :=
  Forall (λ field, length (Field.values field) = DataFrame.length frame)
    (DataFrame.fields frame).

(** Two fields agree on everything but their values. *)
Definition sameAttributes (field field' : Field.t) : Prop :=
  Field.name field = Field.name field' ∧
  Field.type field = Field.type field' ∧
  Field.config field = Field.config field'.

(** Two frames have the same fields up to values. *)
Definition sameShape (frame frame' : DataFrame.t) : Prop :=
  Forall2 sameAttributes (DataFrame.fields frame) (DataFrame.fields frame').

(** What one filter does to the decision of one row, given whether the
    row matched: the two branches of lines 90-94 and 99-103. *)
Definition decideAll (includeRow : bool) (filterIndex : nat) (matched : bool)
    (decision : option bool) : option bool :=
  if negb matched then Some (negb includeRow)
  else if decide (filterIndex = 0) then Some includeRow
  else decision.

Definition decideAny (includeRow : bool) (filterIndex : nat) (matched : bool)
    (decision : option bool) : option bool :=
  if matched then Some includeRow
  else if decide (filterIndex = 0) then Some (negb includeRow)
  else decision.

(** ** A sample environment *)

(** Modelled from the spec: a string-equality predicate kind (the kinds
    registered in transformations/valueFilters are not among the sources).
    By the instance contract [isValid] holds iff the expression parses,
    here iff it is set and not empty, and [test] is a total function of the
    cell: it holds of the string cells equal to the expression. *)
Definition equalsInfo : ValueFilterInfo := {|
  id := "equals";
  getInstance := λ options,
    match InstanceOptions.filterExpression options with
    | Some expression =>
        {| isValid := negb (bool_decide (expression = ""));
           test := λ value, bool_decide (value = VString expression) |}
    | None => {| isValid := false; test := λ _, false |}
    end;
|}.

(** Modelled from the spec: an environment for the scenarios.  The registry
    holds that one kind; the display-name function, which the spec leaves to
    a collaborator, resolves a field to its name. *)
Definition sampleEnvironment : Environment := {|
  getFieldDisplayName := Field.name;
  valueFiltersRegistry := {[ "equals" := equalsInfo ]};
|}.

Definition stringField (name : string) (cells : list string) : Field.t :=
  Field.mk name FieldType.string [] (VString <$> cells).

Definition equalsFilter (fieldName expression : string) : ValueFilter.t :=
  ValueFilter.mk (Some fieldName) (Some expression) None [] "equals".

(** The filter a fresh configuration starts with ([defaultOptions], lines
    29-35): no field chosen, kind [regex]. *)
Definition defaultFilter : ValueFilter.t :=
  ValueFilter.mk None None None [] "regex".

Definition statusFrame : DataFrame.t :=
  DataFrame.mk [stringField "status" ["ok"; "fail"; "ok"; "fail"]] 4.

Definition hostFrame : DataFrame.t :=
  DataFrame.mk [stringField "host" ["a"; "b"; "c"; "d"]] 4.

Definition shortFrame : DataFrame.t :=
  DataFrame.mk [stringField "host" ["a"]] 1.

Definition twoFieldFrame : DataFrame.t :=
  DataFrame.mk
    [stringField "status" ["ok"; "fail"]; stringField "host" ["a"; "b"]] 2.

Definition allOkFrame : DataFrame.t :=
  DataFrame.mk [stringField "status" ["ok"; "ok"]] 2.

Definition twoHostFrame : DataFrame.t :=
  DataFrame.mk [stringField "host" ["a"; "b"]] 2.

Definition include_all (filters : list ValueFilter.t) : Options.t :=
  Options.mk filters (Some "include") (Some "all").

Definition include_any (filters : list ValueFilter.t) : Options.t :=
  Options.mk filters (Some "include") (Some "any").

Definition exclude_any (filters : list ValueFilter.t) : Options.t :=
  Options.mk filters (Some "exclude") (Some "any").

(** ** What the filters say of a row *)

Section Verdict.
Context {environment : Environment}.

(** What a filter says of row [row] of a frame, read off lines 62-90: the
    result of [test] on the cell of the field the filter names, when the
    filter reaches the row loop of the frame, and [None] when it does not. *)
Definition verdict (frame : DataFrame.t) (filter : ValueFilter.t) (row : nat)
    : option bool :=
  match findField frame filter with
  | None => None
  | Some field =>
      match valueFiltersRegistry !! ValueFilter.filterType filter with
      | None => None
      | Some info =>
          let filterInstance := getInstance info (instanceOptions filter field) in
          if isValid filterInstance
          then Some (test filterInstance
                       (ArrayVector.get (Field.values field) row))
          else None
      end
  end.

(** The row satisfies every filter that reaches the row loop. *)
Definition matchedAll (frame : DataFrame.t) (filters : list ValueFilter.t)
    (row : nat) : bool :=
  forallb (λ filter, default true (verdict frame filter row)) filters.

(** The row satisfies some filter that reaches the row loop. *)
Definition matchedAny (frame : DataFrame.t) (filters : list ValueFilter.t)
    (row : nat) : bool :=
  existsb (λ filter, default false (verdict frame filter row)) filters.

(** The rows a call with the given [includeRow] and [matchAll] is meant to
    keep: the matching ones under include, the others under exclude. *)
Definition keeps (includeRow matchAll : bool) (frame : DataFrame.t)
    (filters : list ValueFilter.t) (row : nat) : bool :=
  if (if matchAll then matchedAll frame filters row
      else matchedAny frame filters row)
  then includeRow
  else negb includeRow.

Definition keptRows (includeRow matchAll : bool) (frame : DataFrame.t)
    (filters : list ValueFilter.t) : list nat :=
  filter (λ row, keeps includeRow matchAll frame filters row = true)
    (seq 0 (DataFrame.length frame)).

(** Every configured kind is in the registry. *)
Definition registered (filters : list ValueFilter.t) : Prop :=
  Forall
    (λ filter, is_Some (valueFiltersRegistry !! ValueFilter.filterType filter))
    filters.

End Verdict.

(** No frame is shorter than [rows] or than the frame before it. *)
Fixpoint neverShorter (rows : nat) (data : list DataFrame.t) : Prop :=
  match data with
  | [] => True
  | frame :: rest =>
      rows ≤ DataFrame.length frame ∧ neverShorter (DataFrame.length frame) rest
  end.

(** ** The editor *)

(** [SelectableValue<string>], as the editor builds it. *)
Module SelectableValue.
Record t : Type := mk {
  label : string;
  value : string;
}.
End SelectableValue.

(** The entries of [getAllFieldInfoFromDataFrames]. *)
Module FieldInfo.
Record t : Type := mk {
  name : string;
  type : FieldType.t;
}.
End FieldInfo.

(** What the editor reads from outside the sources: [getFieldDisplayName]
    called with the field, its frame and all frames, and two optional
    members of a registry descriptor. *)
Class EditorEnvironment : Type := {
  getFieldDisplayNameIn : Field.t → DataFrame.t → list DataFrame.t → string;
  supportedFieldTypes : ValueFilterInfo → option (list FieldType.t);
  placeholder2 : ValueFilterInfo → option string;
}.

Section Editor.
Context {environment : Environment} {editor : EditorEnvironment}.

(** Lines 424-440.  [data] is a list here, so the [Array.isArray] guard
    never fires. *)
Definition getFieldsByName (fieldName : option string) (data : list DataFrame.t)
    : list Field.t :=
  match fieldName with
  | None => []
  | Some name =>
      frame ← data;
      filter (λ field, name = getFieldDisplayNameIn field frame data)
        (DataFrame.fields frame)
  end.

(** Lines 443-449. *)
Definition getFieldByName (fieldName : option string) (data : list DataFrame.t)
    : option Field.t :=
  match fieldName with
  | None => None
  | Some _ => head (getFieldsByName fieldName data)
  end.

(** Lines 451-467. *)
Definition getAllFieldInfoFromDataFrames (input : list DataFrame.t)
    : list FieldInfo.t :=
  frame ← input;
  (λ field,
     FieldInfo.mk (getFieldDisplayNameIn field frame input) (Field.type field))
    <$> DataFrame.fields frame.

(** Lines 307-313. *)
Definition fieldNameOptions (input : list DataFrame.t)
    : list SelectableValue.t :=
  (λ item, SelectableValue.mk (FieldInfo.name item) (FieldInfo.name item))
    <$> filter (λ item, FieldInfo.type item ≠ FieldType.time)
          (getAllFieldInfoFromDataFrames input).

(** Lines 315-329: the options handed to [onChange]. *)
Definition onAddFilter (options : Options.t) : Options.t :=
  Options.mk
    (Options.valueFilters options ++ [ValueFilter.mk None None None [] "regex"])
    (Options.type options) (Options.match_ options).

(** Lines 331-341: [splice(index, 1)] removes the element at [index] and
    nothing when [index] is past the end. *)
Definition onDeleteFilter (index : nat) (options : Options.t) : Options.t :=
  Options.mk (delete index (Options.valueFilters options))
    (Options.type options) (Options.match_ options).

(** Line 392: [matchingField?.type || FieldType.other]; every type tag is a
    non-empty string. *)
Definition rowFieldType (fieldName : option string) (input : list DataFrame.t)
    : FieldType.t :=
  match getFieldByName fieldName input with
  | Some matchingField => Field.type matchingField
  | None => FieldType.other
  end.

(** The three markers a row of the editor computes, lines 196-214, as
    truth values. *)
Record RowFlags : Type := {
  fieldNameInvalid : bool;
  filterTypeInvalid : bool;
  filterExpressionInvalid : bool;
}.

Definition rowFlags (options : list SelectableValue.t) (config : ValueFilter.t)
    (fieldType : FieldType.t) : Result RowFlags :=
  filterInfo <- Registry.get valueFiltersRegistry (ValueFilter.filterType config) ;;;
  let filterInstance :=
    getInstance filterInfo
      (InstanceOptions.mk
         (ValueFilter.filterExpression config)
         (ValueFilter.filterExpression2 config)
         (ValueFilter.filterArgs config)
         fieldType) in
  let filterValid := isValid filterInstance in
  let nameInvalid :=
    bool_decide (ValueFilter.fieldName config ≠ None) &&
    negb (bool_decide
            (Exists (λ item,
               Some (SelectableValue.value item) = ValueFilter.fieldName config)
               options)) in
  let typeInvalid :=
    negb nameInvalid &&
    match supportedFieldTypes filterInfo with
    | Some supported => negb (bool_decide (fieldType ∈ supported))
    | None => false
    end in
  let expressionInvalid :=
    bool_decide (ValueFilter.filterExpression config ≠ Some "") &&
    ((bool_decide (placeholder2 filterInfo ≠ None) &&
      bool_decide (ValueFilter.filterExpression2 config ≠ Some "")) ||
     bool_decide (placeholder2 filterInfo = None)) &&
    negb nameInvalid && negb typeInvalid && negb filterValid in
  Ok {| fieldNameInvalid := nameInvalid;
        filterTypeInvalid := typeInvalid;
        filterExpressionInvalid := expressionInvalid |}.

End Editor.

(** Modelled from the spec: an editor environment for the scenarios.  Display
    names are resolved to the field's name, also when the frame and the
    frames are given; the descriptor of the equality kind declares the
    supported field types (an "optional set of supported field-type tags")
    and no second placeholder. *)
Definition sampleEditor : EditorEnvironment := {|
  getFieldDisplayNameIn := λ field _ _, Field.name field;
  supportedFieldTypes := λ _, Some [FieldType.string];
  placeholder2 := λ _, None;
|}.

Definition emptyFrame : DataFrame.t :=
  DataFrame.mk [stringField "status" []] 0.

(** * Properties *)

(** ** The decision array *)

Module JsArrayFacts.
Import JsArray.

Lemma length_set (a : JsArray.t) i v :
  length (set a i v) = length a `max` S i.
Proof.
  unfold set. case_decide.
  - rewrite length_insert. lia.
  - rewrite !length_app, length_replicate. simpl. lia.
Qed.

Lemma get_set_eq (a : JsArray.t) i v : get (set a i v) i = Some v.
Proof.
  unfold get, set. case_decide.
  - by rewrite list_lookup_insert_eq.
  - rewrite lookup_app_r by lia.
    rewrite lookup_app_r by (rewrite length_replicate; lia).
    rewrite length_replicate.
    by replace (i - length a - (i - length a)) with 0 by lia.
Qed.

Lemma get_set_ne (a : JsArray.t) i j v : i ≠ j → get (set a i v) j = get a j.
Proof.
  intros Hne. unfold get, set. case_decide.
  - by rewrite list_lookup_insert_ne.
  - destruct (decide (j < length a)) as [Hj|Hj].
    + by rewrite lookup_app_l.
    + rewrite lookup_app_r by lia.
      rewrite (lookup_ge_None_2 a j) by lia. simpl.
      destruct (decide (j - length a < i - length a)) as [Hlt|Hge].
      * rewrite lookup_app_l by (rewrite length_replicate; lia).
        by rewrite lookup_replicate_2.
      * rewrite lookup_app_r by (rewrite length_replicate; lia).
        rewrite length_replicate.
        rewrite lookup_ge_None_2; [done|]. simpl. lia.
Qed.

Lemma get_ge (a : JsArray.t) i : length a ≤ i → get a i = None.
Proof. intros H. unfold get. by rewrite lookup_ge_None_2. Qed.

Lemma get_Some_lt (a : JsArray.t) i b : get a i = Some b → i < length a.
Proof.
  intros H. destruct (decide (i < length a)); [done|].
  rewrite get_ge in H by lia. done.
Qed.

Lemma truthy_get (a : JsArray.t) i : truthy a i = true ↔ get a i = Some true.
Proof. unfold truthy. by destruct (get a i) as [[]|]. Qed.

End JsArrayFacts.

(** ** The row loop *)

Section RowLoop.
Import JsArray JsArrayFacts.

Variables (includeRow : bool) (filterIndex : nat).
Variables (filterInstance : ValueFilterInstance) (field : Field.t).

Local Abbreviation matched row :=
  (test filterInstance (ArrayVector.get (Field.values field) row)).

Lemma get_testRowAll (d : JsArray.t) row j :
  get (testRowAll includeRow filterIndex filterInstance field d row) j =
  if decide (j = row)
  then decideAll includeRow filterIndex (matched j) (get d j)
  else get d j.
Proof.
  unfold testRowAll, decideAll.
  destruct (decide (j = row)) as [->|Hj];
    repeat case_match; rewrite ?get_set_eq, ?get_set_ne by done; done.
Qed.

Lemma get_testRowAny (d : JsArray.t) row j :
  get (testRowAny includeRow filterIndex filterInstance field d row) j =
  if decide (j = row)
  then decideAny includeRow filterIndex (matched j) (get d j)
  else get d j.
Proof.
  unfold testRowAny, decideAny.
  destruct (decide (j = row)) as [->|Hj];
    repeat case_match; rewrite ?get_set_eq, ?get_set_ne by done; done.
Qed.

Lemma length_testRowAll (d : JsArray.t) row :
  length d ≤ length (testRowAll includeRow filterIndex filterInstance field d row).
Proof. unfold testRowAll. repeat case_match; rewrite ?length_set; lia. Qed.

Lemma length_testRowAny (d : JsArray.t) row :
  length d ≤ length (testRowAny includeRow filterIndex filterInstance field d row).
Proof. unfold testRowAny. repeat case_match; rewrite ?length_set; lia. Qed.

(** A loop over [0 .. n-1] whose body touches only the entry of its own row. *)
Lemma get_foldl_rows (step : JsArray.t → nat → JsArray.t)
    (update : nat → option bool → option bool) n (d : JsArray.t) j :
  (∀ d' row k, get (step d' row) k =
               if decide (k = row) then update k (get d' k) else get d' k) →
  get (foldl step d (seq 0 n)) j =
  if decide (j < n) then update j (get d j) else get d j.
Proof.
  intros Hstep. induction n as [|n IH].
  - destruct (decide (j < 0)); [lia|reflexivity].
  - rewrite seq_S, foldl_app. cbn [foldl]. rewrite Hstep, IH.
    destruct (decide (j = 0 + n)), (decide (j < n)), (decide (j < S n));
      try lia; done.
Qed.

Lemma length_foldl_rows (step : JsArray.t → nat → JsArray.t) rows (d : JsArray.t) :
  (∀ d' row, length d' ≤ length (step d' row)) →
  length d ≤ length (foldl step d rows).
Proof.
  intros Hstep. revert d. induction rows as [|row rows IH]; intros d; simpl.
  - done.
  - etrans; [apply (Hstep d row)|apply IH].
Qed.

Lemma get_testRows matchAll frame (d : JsArray.t) j :
  get (testRows includeRow filterIndex filterInstance field matchAll frame d) j =
  if decide (j < DataFrame.length frame)
  then (if matchAll then decideAll else decideAny)
         includeRow filterIndex (matched j) (get d j)
  else get d j.
Proof.
  unfold testRows. destruct matchAll.
  - apply (get_foldl_rows _
             (λ k, decideAll includeRow filterIndex (matched k))).
    apply get_testRowAll.
  - apply (get_foldl_rows _
             (λ k, decideAny includeRow filterIndex (matched k))).
    apply get_testRowAny.
Qed.

Lemma length_testRows matchAll frame (d : JsArray.t) :
  length d ≤
  length (testRows includeRow filterIndex filterInstance field matchAll frame d).
Proof.
  unfold testRows. destruct matchAll; apply length_foldl_rows;
    auto using length_testRowAll, length_testRowAny.
Qed.

Lemma length_testRowAll_le (d : JsArray.t) row :
  length (testRowAll includeRow filterIndex filterInstance field d row) ≤
  length d `max` S row.
Proof. unfold testRowAll. repeat case_match; rewrite ?length_set; lia. Qed.

Lemma length_testRowAny_le (d : JsArray.t) row :
  length (testRowAny includeRow filterIndex filterInstance field d row) ≤
  length d `max` S row.
Proof. unfold testRowAny. repeat case_match; rewrite ?length_set; lia. Qed.

Lemma length_foldl_rows_le (step : JsArray.t → nat → JsArray.t) n (d : JsArray.t) :
  (∀ d' row, length (step d' row) ≤ length d' `max` S row) →
  length (foldl step d (seq 0 n)) ≤ length d `max` n.
Proof.
  intros Hstep. induction n as [|n IH]; [cbn; lia|].
  rewrite seq_S, foldl_app. cbn [foldl].
  etrans; [apply Hstep|]. cbn [Nat.add]. lia.
Qed.

(** The row loop never writes past the frame's length. *)
Lemma length_testRows_le matchAll frame (d : JsArray.t) :
  length (testRows includeRow filterIndex filterInstance field matchAll frame d) ≤
  length d `max` DataFrame.length frame.
Proof.
  unfold testRows. destruct matchAll; apply length_foldl_rows_le;
    auto using length_testRowAll_le, length_testRowAny_le.
Qed.

End RowLoop.

(** ** The filter loop *)

Section FilterLoop.
Import JsArray JsArrayFacts.

Context {environment : Environment}.
Variables (includeRow matchAll : bool) (frame : DataFrame.t).

(** One turn of the loop, by cases on what line 62-85 find. *)
Lemma filterLoop_cons filterIndex filter rest (d : JsArray.t) :
  filterLoop includeRow matchAll frame filterIndex (filter :: rest) d =
  match findField frame filter with
  | None => filterLoop includeRow matchAll frame (S filterIndex) rest d
  | Some field =>
      match valueFiltersRegistry !! ValueFilter.filterType filter with
      | None => Throw (UnknownPredicateKind (ValueFilter.filterType filter))
      | Some info =>
          if isValid (getInstance info (instanceOptions filter field))
          then filterLoop includeRow matchAll frame (S filterIndex) rest
                 (testRows includeRow filterIndex
                    (getInstance info (instanceOptions filter field)) field
                    matchAll frame d)
          else filterLoop includeRow matchAll frame (S filterIndex) rest d
      end
  end.
Proof.
  cbn [filterLoop]. destruct (findField frame filter); [|done].
  unfold Registry.get. destruct (valueFiltersRegistry !! _); [|done].
  cbn [bind]. by destruct (isValid _).
Qed.

Lemma filterLoop_throw_iff filterIndex filters (d : JsArray.t) :
  (∃ e, filterLoop includeRow matchAll frame filterIndex filters d = Throw e) ↔
  Exists (unknownKind frame) filters.
Proof.
  revert filterIndex d.
  induction filters as [|filter rest IH]; intros filterIndex d.
  - split; [intros [e He]; discriminate|intros H; inversion H].
  - rewrite filterLoop_cons, Exists_cons. unfold unknownKind at 1.
    destruct (findField frame filter) as [field|] eqn:Hfield.
    + destruct (valueFiltersRegistry !! _) as [info|] eqn:Hinfo.
      * destruct (isValid _); rewrite IH; split; auto;
          intros [(field' & [= <-] & ?)|?]; congruence.
      * split; eauto.
    + rewrite IH. split; auto. intros [(field' & ? & ?)|?]; [discriminate|done].
Qed.

Lemma filterLoop_skipped filterIndex filters (d : JsArray.t) :
  Forall (skipped frame) filters →
  filterLoop includeRow matchAll frame filterIndex filters d = Ok d.
Proof.
  revert filterIndex.
  induction filters as [|filter rest IH]; intros filterIndex Hall; [done|].
  apply Forall_cons in Hall as [Hskip Hrest].
  rewrite filterLoop_cons.
  destruct (findField frame filter) as [field|] eqn:Hfield; [|by apply IH].
  destruct (Hskip field Hfield) as (info & -> & Hvalid).
  rewrite Hvalid. by apply IH.
Qed.

Lemma filterLoop_length filterIndex filters (d d' : JsArray.t) :
  filterLoop includeRow matchAll frame filterIndex filters d = Ok d' →
  length d ≤ length d'.
Proof.
  revert filterIndex d.
  induction filters as [|filter rest IH]; intros filterIndex d.
  - intros [= ->]. done.
  - rewrite filterLoop_cons. repeat case_match; try done; intros Hrest%IH; try done.
    etrans; [apply length_testRows|done].
Qed.

(** Rows past the frame's length are never touched. *)
Lemma filterLoop_get_ge filterIndex filters (d d' : JsArray.t) j :
  filterLoop includeRow matchAll frame filterIndex filters d = Ok d' →
  DataFrame.length frame ≤ j →
  get d' j = get d j.
Proof.
  revert filterIndex d.
  induction filters as [|filter rest IH]; intros filterIndex d.
  - by intros [= ->].
  - rewrite filterLoop_cons. intros Hrest Hj.
    repeat case_match; try done; rewrite (IH _ _ Hrest Hj); try done.
    rewrite get_testRows. case_decide; [lia|done].
Qed.

Lemma filterLoop_length_le filterIndex filters (d d' : JsArray.t) :
  filterLoop includeRow matchAll frame filterIndex filters d = Ok d' →
  length d' ≤ length d `max` DataFrame.length frame.
Proof.
  revert filterIndex d.
  induction filters as [|filter rest IH]; intros filterIndex d.
  - intros [= ->]. lia.
  - rewrite filterLoop_cons.
    destruct (findField frame filter) as [field|]; [|apply IH].
    destruct (valueFiltersRegistry !! _) as [info|]; [|done].
    destruct (isValid _); [|apply IH].
    intros Hrest%IH. etrans; [done|].
    pose proof (length_testRows_le includeRow filterIndex
                  (getInstance info (instanceOptions filter field)) field
                  matchAll frame d).
    lia.
Qed.

End FilterLoop.

(** ** The copying loop *)

Section CopyLoop.
Import JsArray JsArrayFacts.

Variable frame : DataFrame.t.

Lemma copyRow_project indices row :
  copyRow frame (project indices <$> DataFrame.fields frame) row =
  project (indices ++ [row]) <$> DataFrame.fields frame.
Proof.
  unfold copyRow. induction (DataFrame.fields frame) as [|field fields IH].
  - done.
  - cbn [fmap list_fmap zip_with]. f_equal; [|apply IH].
    unfold project, ArrayVector.add. cbn. by rewrite fmap_app.
Qed.

Lemma foldl_copyStep (d : JsArray.t) indices rows :
  foldl (copyStep frame d)
    (project indices <$> DataFrame.fields frame, length indices) rows =
  (project (indices ++ filter (λ row, truthy d row = true) rows)
     <$> DataFrame.fields frame,
   length (indices ++ filter (λ row, truthy d row = true) rows)).
Proof.
  revert indices. induction rows as [|row rows IH]; intros indices.
  - by rewrite app_nil_r.
  - cbn [foldl]. unfold copyStep at 2. cbn [fst snd].
    destruct (truthy d row) eqn:Htruthy.
    + rewrite filter_cons_True by done.
      rewrite copyRow_project.
      replace (S (length indices)) with (length (indices ++ [row]))
        by (rewrite length_app; simpl; lia).
      rewrite IH. by rewrite <- app_assoc.
    + rewrite filter_cons_False by (by rewrite Htruthy). apply IH.
Qed.

(** The copying loop keeps, of every field, the cells at the selected rows. *)
Lemma filteredFrame_selected (d : JsArray.t) :
  filteredFrame frame d =
  DataFrame.mk (project (selected d) <$> DataFrame.fields frame)
    (length (selected d)).
Proof.
  unfold filteredFrame.
  change (skeleton <$> DataFrame.fields frame, 0)
    with (project [] <$> DataFrame.fields frame, length (@nil nat)).
  by rewrite foldl_copyStep.
Qed.

Lemma elem_of_selected (d : JsArray.t) row :
  row ∈ selected d ↔ get d row = Some true.
Proof.
  unfold selected. rewrite list_elem_of_filter, elem_of_seq, truthy_get.
  split; [by intros [? _]|]. intros Hget. split; [done|].
  apply get_Some_lt in Hget. lia.
Qed.

Lemma rowAt_filteredFrame (d : JsArray.t) k row :
  selected d !! k = Some row →
  rowAt (filteredFrame frame d) k = rowAt frame row.
Proof.
  intros Hk. rewrite filteredFrame_selected. unfold rowAt. cbn.
  rewrite <- list_fmap_compose. apply list_fmap_ext. intros _ field _. cbn.
  unfold ArrayVector.get. by rewrite list_lookup_fmap, Hk.
Qed.

(** The rows of the new frame are the selected rows of the old one. *)
Lemma rows_filteredFrame (d : JsArray.t) :
  rows (filteredFrame frame d) = rowAt frame <$> selected d.
Proof.
  apply list_eq. intros k. unfold rows.
  rewrite !list_lookup_fmap.
  destruct (selected d !! k) as [row|] eqn:Hk.
  - rewrite lookup_seq_lt.
    + cbn. f_equal. by apply rowAt_filteredFrame.
    + rewrite filteredFrame_selected. cbn. by eapply lookup_lt_Some.
  - rewrite lookup_seq_ge; [done|].
    rewrite filteredFrame_selected. cbn. by apply lookup_ge_None.
Qed.

End CopyLoop.

(** ** The frame loop *)

Section FrameLoop.
Context {environment : Environment}.

Variables (includeRow matchAll : bool) (filters : list ValueFilter.t).

Lemma frameLoop_app frames1 frames2 processed (d : JsArray.t) :
  frameLoop includeRow matchAll filters (frames1 ++ frames2) processed d =
  (state <- frameLoop includeRow matchAll filters frames1 processed d ;;;
   frameLoop includeRow matchAll filters frames2 state.1 state.2).
Proof.
  revert processed d.
  induction frames1 as [|frame frames1 IH]; intros processed d; [done|].
  cbn [app frameLoop].
  destruct (filterLoop includeRow matchAll frame 0 filters d); [|done].
  cbn [bind]. apply IH.
Qed.

(** What the loop returns: one new frame per input frame, appended in
    order; the decision array never shrinks. *)
Lemma frameLoop_Ok frames processed (d : JsArray.t) processed' (d' : JsArray.t) :
  frameLoop includeRow matchAll filters frames processed d = Ok (processed', d') →
  ∃ ds : list JsArray.t,
    length ds = length frames ∧
    processed' = processed ++ zip_with filteredFrame frames ds ∧
    length d ≤ length d'.
Proof.
  revert processed d.
  induction frames as [|frame frames IH]; intros processed d.
  - intros [= <- <-]. exists []. by rewrite app_nil_r.
  - cbn [frameLoop].
    destruct (filterLoop includeRow matchAll frame 0 filters d) as [d1|] eqn:Hd1;
      [|done].
    cbn [bind]. intros (ds & Hlen & -> & Hle)%IH.
    exists (d1 :: ds). cbn [length zip_with]. rewrite Hlen, <- app_assoc.
    split_and!; [done..|].
    apply filterLoop_length in Hd1. lia.
Qed.

Lemma frameLoop_throw_iff frames processed (d : JsArray.t) :
  (∃ e, frameLoop includeRow matchAll filters frames processed d = Throw e) ↔
  Exists (λ frame, Exists (unknownKind frame) filters) frames.
Proof.
  revert processed d.
  induction frames as [|frame frames IH]; intros processed d.
  - split; [intros [e He]; discriminate|intros H; inversion H].
  - cbn [frameLoop]. rewrite Exists_cons.
    rewrite <- (filterLoop_throw_iff includeRow matchAll frame 0 filters d).
    destruct (filterLoop includeRow matchAll frame 0 filters d) as [d1|e1];
      cbn [bind].
    + rewrite IH. split; [auto|]. intros [[e He]|?]; [discriminate|done].
    + split; eauto.
Qed.

Lemma frameLoop_skipped frames processed (d : JsArray.t) :
  Forall (λ frame, Forall (skipped frame) filters) frames →
  frameLoop includeRow matchAll filters frames processed d =
  Ok (processed ++ ((λ frame, filteredFrame frame d) <$> frames), d).
Proof.
  revert processed.
  induction frames as [|frame frames IH]; intros processed Hall.
  - by rewrite app_nil_r.
  - apply Forall_cons in Hall as [Hframe Hrest].
    cbn [frameLoop]. rewrite filterLoop_skipped by done. cbn [bind].
    rewrite IH by done. by rewrite <- app_assoc.
Qed.

End FrameLoop.

(** ** The transformer *)

Section TransformerFacts.
Context {environment : Environment}.

(** C6: a frame whose string field [status] holds ok, fail, ok, fail, and the
    single filter "status equals ok" under match all: with type include the
    result is one frame of 2 rows with status ok, ok; with type exclude it is
    one frame of 2 rows with status fail, fail.  The equality kind is any
    registered kind whose instance for the expression "ok" on a string field
    is valid and tells "ok" from "fail". *)
Theorem scenario_status_equals_ok
    (status : Field.t) (equals : ValueFilterID) (info : ValueFilterInfo)
    (expression2 : option string) (filterArgs : KeyValue) :
  let filterInstance :=
    getInstance info
      (InstanceOptions.mk (Some "ok") expression2 filterArgs FieldType.string) in
  let filter :=
    ValueFilter.mk (Some "status") (Some "ok") expression2 filterArgs equals in
  let kept cells :=
    DataFrame.mk
      [Field.mk (Field.name status) FieldType.string (Field.config status)
         (VString <$> cells)]
      2 in
  getFieldDisplayName status = "status" →
  Field.type status = FieldType.string →
  Field.values status = VString <$> ["ok"; "fail"; "ok"; "fail"] →
  valueFiltersRegistry !! equals = Some info →
  isValid filterInstance = true →
  test filterInstance (VString "ok") = true →
  test filterInstance (VString "fail") = false →
  transformer (Options.mk [filter] (Some "include") (Some "all"))
    [DataFrame.mk [status] 4] = Ok [kept ["ok"; "ok"]] ∧
  transformer (Options.mk [filter] (Some "exclude") (Some "all"))
    [DataFrame.mk [status] 4] = Ok [kept ["fail"; "fail"]].
Proof.
  intros filterInstance filter kept Hname Htype Hvalues Hinfo Hvalid Hok Hfail.
  destruct status as [name type config values].
  cbn in Htype, Hvalues. subst type values.
  set (status := Field.mk name _ config _) in *.
  assert (Hfind : findField (DataFrame.mk [status] 4) filter = Some status).
  { unfold findField. cbn. rewrite Hname. by rewrite bool_decide_eq_true_2. }
  assert (Hkind :
    valueFiltersRegistry !! ValueFilter.filterType filter = Some info)
    by exact Hinfo.
  change (getInstance info (instanceOptions filter status))
    with filterInstance in *.
  unfold transformer, kept.
  cbn [Options.valueFilters Options.type Options.match_ length frameLoop].
  split.
  all: rewrite filterLoop_cons, Hfind, Hkind.
  all: change (getInstance info (instanceOptions filter status))
         with filterInstance.
  all: rewrite Hvalid.
  all: cbn [filterLoop bind].
  all: unfold testRows, testRowAll.
  all: cbn; rewrite ?Hok, ?Hfail.
  all: vm_compute; reflexivity.
Qed.

Lemma skipped_iff frame filter :
  skipped frame filter ↔ ¬ applicable frame filter ∧ ¬ unknownKind frame filter.
Proof.
  unfold skipped, applicable, unknownKind. split.
  - intros Hskip. split.
    + intros (field & info & Hfield & Hinfo & Hvalid).
      destruct (Hskip field Hfield) as (info' & Hinfo' & Hvalid'). congruence.
    + intros (field & Hfield & Hinfo).
      destruct (Hskip field Hfield) as (info' & Hinfo' & _). congruence.
  - intros [Hnot Hknown] field Hfield.
    destruct (valueFiltersRegistry !! ValueFilter.filterType filter)
      as [info|] eqn:Hinfo; [|destruct Hknown; eauto].
    exists info. split; [done|].
    destruct (isValid _) eqn:Hvalid; [|done].
    destruct Hnot. eauto.
Qed.

(** C4: when [valueFilters] is empty, or when every filter is skipped for
    every frame (it names no field of the frame, or the instance built for
    the field it names has [isValid = false]), the transformer returns the
    input frames themselves. *)
Theorem no_applicable_filter_returns_input options data :
  Options.valueFilters options = [] ∨
  Forall (λ frame, Forall (skipped frame) (Options.valueFilters options)) data →
  transformer options data = Ok data.
Proof.
  unfold transformer. intros [Hnil|Hskip].
  - by rewrite Hnil.
  - case_decide; [done|].
    rewrite frameLoop_skipped by done. cbn [bind snd length].
    case_decide; [lia|done].
Qed.

Lemma transformer_throw_iff options data :
  (∃ e, transformer options data = Throw e) ↔
  Exists (λ frame, Exists (unknownKind frame) (Options.valueFilters options)) data.
Proof.
  unfold transformer. case_decide as Hlen.
  - apply length_zero_iff_nil in Hlen. rewrite Hlen. split.
    + intros [e He]. discriminate.
    + intros (frame & _ & H)%Exists_exists. inversion H.
  - set (includeRow := bool_decide (Options.type options = _)).
    set (matchAll := bool_decide (Options.match_ options = _)).
    rewrite <- (frameLoop_throw_iff includeRow matchAll _ data [] []).
    destruct (frameLoop _ _ _ data [] []) as [state|e]; cbn [bind].
    + split; intros [e He]; [|discriminate]. by case_decide.
    + split; intros _; eauto.
Qed.

(** C5: the transformer throws exactly when, for some frame of the input,
    some filter names a field of that frame and has a kind that is not
    registered; so such a filter makes the whole call fail, and nothing else
    does. *)
Theorem unknown_kind_is_the_only_failure options data :
  (∃ frame filter,
     frame ∈ data ∧ filter ∈ Options.valueFilters options ∧
     unknownKind frame filter) ↔
  (∃ e, transformer options data = Throw e).
Proof.
  rewrite transformer_throw_iff, Exists_exists.
  setoid_rewrite Exists_exists. split.
  - intros (frame & filter & ? & ? & ?). eauto.
  - intros (frame & ? & filter & ? & ?). eauto 6.
Qed.

(** With every configured kind registered, the transformer returns. *)
Lemma transformer_registered options data :
  Forall (λ filter,
    is_Some (valueFiltersRegistry !! ValueFilter.filterType filter))
    (Options.valueFilters options) →
  ∃ out, transformer options data = Ok out.
Proof.
  intros Hregistered.
  destruct (transformer options data) as [out|e] eqn:Hout; [eauto|].
  assert (Hthrow : ∃ e, transformer options data = Throw e) by eauto.
  apply transformer_throw_iff, Exists_exists in Hthrow as (frame & _ & Hunknown).
  apply Exists_exists in Hunknown as (filter & Hin & field & _ & Hnone).
  rewrite Forall_forall in Hregistered.
  destruct (Hregistered filter Hin) as [info Hinfo]. congruence.
Qed.

(** C3, as the code has it: [type] and [match] are compared with the literals
    'include' and 'all'.  An unset or unrecognised [type] therefore behaves
    as 'exclude', and an unset or unrecognised [match] as 'any'. *)
Theorem unset_type_excludes_unset_match_is_any options data :
  (Options.type options ≠ Some "include" →
   transformer options data =
   transformer
     (Options.mk (Options.valueFilters options) (Some "exclude")
        (Options.match_ options))
     data) ∧
  (Options.match_ options ≠ Some "all" →
   transformer options data =
   transformer
     (Options.mk (Options.valueFilters options) (Options.type options)
        (Some "any"))
     data).
Proof.
  unfold transformer. cbn [Options.valueFilters Options.type Options.match_].
  split; intros Hne.
  - by rewrite (bool_decide_eq_false_2 _ Hne).
  - by rewrite (bool_decide_eq_false_2 _ Hne).
Qed.

Lemma sameShape_filteredFrame frame (d : JsArray.t) :
  sameShape frame (filteredFrame frame d).
Proof.
  rewrite filteredFrame_selected. unfold sameShape. cbn.
  apply Forall2_fmap_r, Forall_Forall2_diag, Forall_forall.
  intros field _. by unfold sameAttributes.
Qed.

Lemma wellFormed_filteredFrame frame (d : JsArray.t) :
  wellFormed (filteredFrame frame d).
Proof.
  rewrite filteredFrame_selected. unfold wellFormed. cbn.
  apply Forall_fmap, Forall_forall. intros field _. cbn.
  by rewrite length_fmap.
Qed.

Lemma sameShape_refl frame : sameShape frame frame.
Proof.
  apply Forall_Forall2_diag, Forall_forall. intros field _.
  by unfold sameAttributes.
Qed.

Lemma processed_shape frames (ds : list JsArray.t) :
  length ds = length frames →
  Forall2 sameShape frames (zip_with filteredFrame frames ds) ∧
  Forall wellFormed (zip_with filteredFrame frames ds).
Proof.
  revert ds. induction frames as [|frame frames IH]; intros [|d ds] Hlen;
    try discriminate; cbn [zip_with].
  - split; constructor.
  - destruct (IH ds) as [Hshape Hwf]; [by injection Hlen|].
    split; constructor;
      auto using sameShape_filteredFrame, wellFormed_filteredFrame.
Qed.

(** C9: whatever the transformer returns has one frame per input frame, and
    each returned frame has as many fields as its input frame, field by
    field with the same name, type and config; and if the input frames
    satisfy the frame invariant, then in every returned frame each field
    holds exactly as many values as the frame's length says. *)
Theorem output_keeps_field_shape options data out :
  transformer options data = Ok out →
  Forall2 sameShape data out ∧
  (Forall wellFormed data → Forall wellFormed out).
Proof.
  assert (Hsame : Forall2 sameShape data data).
  { apply Forall_Forall2_diag, Forall_forall. intros frame _.
    apply sameShape_refl. }
  unfold transformer.
  destruct (decide (length (Options.valueFilters options) = 0));
    [by intros [= <-]|].
  destruct (frameLoop _ _ _ data [] []) as [[processed d]|e] eqn:Hloop;
    cbn [bind fst snd]; [|done].
  destruct (decide (0 < length d)); intros [= <-]; [|done].
  apply frameLoop_Ok in Hloop as (ds & Hlen & -> & _).
  cbn [app]. destruct (processed_shape data ds Hlen). auto.
Qed.

(** With every configured kind registered, the frame loop returns. *)
Lemma frameLoop_registered includeRow matchAll filters frames processed
    (d : JsArray.t) :
  Forall (λ filter,
    is_Some (valueFiltersRegistry !! ValueFilter.filterType filter)) filters →
  ∃ state, frameLoop includeRow matchAll filters frames processed d = Ok state.
Proof.
  intros Hregistered.
  destruct (frameLoop includeRow matchAll filters frames processed d)
    as [state|e] eqn:Hloop; [eauto|].
  assert (Hthrow : ∃ e,
    frameLoop includeRow matchAll filters frames processed d = Throw e) by eauto.
  apply frameLoop_throw_iff, Exists_exists in Hthrow as (frame & _ & Hunknown).
  apply Exists_exists in Hunknown as (filter & Hin & field & _ & Hnone).
  rewrite Forall_forall in Hregistered.
  destruct (Hregistered filter Hin) as [info Hinfo]. congruence.
Qed.

(** Under match any, a filter past index 0 leaves a positive decision alone,
    whether or not the row matches it. *)
Lemma filterLoop_any_keeps_positive includeRow frame filterIndex filters
    (d d' : JsArray.t) row :
  0 < filterIndex →
  JsArray.get d row = Some includeRow →
  filterLoop includeRow false frame filterIndex filters d = Ok d' →
  JsArray.get d' row = Some includeRow.
Proof.
  revert filterIndex d.
  induction filters as [|filter rest IH]; intros filterIndex d Hindex Hget.
  - by intros [= <-].
  - rewrite filterLoop_cons.
    repeat case_match; try done; apply IH; try lia; try done.
    rewrite get_testRows. case_decide; [|done].
    unfold decideAny. rewrite Hget.
    destruct (test _ _); [done|]. case_decide; [lia|done].
Qed.

(** C7: under type include and match any, with two filters that both name a
    field of a frame and both have valid instances, a row of that frame that
    satisfies the second filter (whatever the first says of it) is among the
    rows of the frame returned at the same position; and in the filter loop
    under match any, from index 1 on, a row whose decision is the positive
    one keeps it through every further filter. *)
Theorem any_include_keeps_row_of_second_filter
    options data i frame filter0 filter1 field0 field1 info0 info1 row :
  let instance0 := getInstance info0 (instanceOptions filter0 field0) in
  let instance1 := getInstance info1 (instanceOptions filter1 field1) in
  Options.type options = Some "include" →
  Options.match_ options = Some "any" →
  Options.valueFilters options = [filter0; filter1] →
  data !! i = Some frame →
  findField frame filter0 = Some field0 →
  findField frame filter1 = Some field1 →
  valueFiltersRegistry !! ValueFilter.filterType filter0 = Some info0 →
  valueFiltersRegistry !! ValueFilter.filterType filter1 = Some info1 →
  isValid instance0 = true →
  isValid instance1 = true →
  row < DataFrame.length frame →
  test instance1 (ArrayVector.get (Field.values field1) row) = true →
  (∃ out oframe,
     transformer options data = Ok out ∧
     out !! i = Some oframe ∧
     rowAt frame row ∈ rows oframe) ∧
  (∀ includeRow filterIndex rest (d d' : JsArray.t),
     0 < filterIndex →
     JsArray.get d row = Some includeRow →
     filterLoop includeRow false frame filterIndex rest d = Ok d' →
     JsArray.get d' row = Some includeRow).
Proof.
  intros instance0 instance1 Htype Hmatch Hfilters Hi Hfield0 Hfield1
    Hinfo0 Hinfo1 Hvalid0 Hvalid1 Hrow Htest.
  split; [|intros; by eapply filterLoop_any_keeps_positive].
  assert (Hregistered : Forall (λ filter,
    is_Some (valueFiltersRegistry !! ValueFilter.filterType filter))
    [filter0; filter1]) by (repeat constructor; eauto).
  unfold transformer. rewrite Htype, Hmatch, Hfilters.
  rewrite bool_decide_eq_true_2, bool_decide_eq_false_2 by done.
  cbn [length]. destruct (decide (2 = 0)) as [|_]; [lia|].
  rewrite <- (take_drop_middle data i frame Hi), frameLoop_app.
  destruct (frameLoop_registered true false [filter0; filter1]
              (take i data) [] [] Hregistered) as [[before d1] Hbefore].
  rewrite Hbefore. cbn [bind fst snd frameLoop].
  rewrite filterLoop_cons, Hfield0, Hinfo0.
  fold instance0. rewrite Hvalid0, filterLoop_cons, Hfield1, Hinfo1.
  fold instance1. rewrite Hvalid1. cbn [filterLoop bind].
  set (d2 := testRows true 1 instance1 field1 false frame _).
  destruct (frameLoop_registered true false [filter0; filter1]
              (drop (S i) data) (before ++ [filteredFrame frame d2]) d2
              Hregistered) as [[processed d] Hafter].
  rewrite Hafter. cbn [bind fst snd].
  apply frameLoop_Ok in Hbefore as (ds1 & Hlen1 & -> & _).
  apply frameLoop_Ok in Hafter as (ds2 & Hlen2 & -> & Hle).
  assert (Hget : JsArray.get d2 row = Some true).
  { unfold d2. rewrite get_testRows. case_decide; [|lia].
    unfold decideAny. by rewrite Htest. }
  pose proof (JsArrayFacts.get_Some_lt _ _ _ Hget) as Hlt.
  destruct (decide (0 < length d)); [|lia].
  eexists _, (filteredFrame frame d2). split_and!; [done|..].
  - apply lookup_lt_Some in Hi.
    cbn [app]. rewrite <- app_assoc. apply list_lookup_middle.
    rewrite length_zip_with, Hlen1, length_take. lia.
  - rewrite rows_filteredFrame. apply list_elem_of_fmap_2.
    by apply elem_of_selected.
Qed.

(** X15: in the first frame the decisions are the frame's own, and the rows
    of the first returned frame are a subsequence of its rows, whatever the
    options. *)
Lemma first_frame_rows_sublist options frame rest out outs :
  transformer options (frame :: rest) = Ok (out :: outs) →
  rows out `sublist_of` rows frame.
Proof.
  unfold transformer.
  destruct (decide (length (Options.valueFilters options) = 0));
    [by intros [= <- _]|].
  cbn [frameLoop].
  destruct (filterLoop _ _ frame 0 _ []) as [d1|] eqn:Hd1; [|done].
  cbn [bind app].
  destruct (frameLoop _ _ _ rest _ d1) as [[processed d]|] eqn:Hrest; [|done].
  cbn [bind fst snd].
  destruct (decide (0 < length d)); intros [= Hout]; [|by subst].
  apply frameLoop_Ok in Hrest as (ds & _ & -> & _).
  injection Hout as <- _.
  apply filterLoop_length_le in Hd1. cbn [length] in Hd1.
  rewrite rows_filteredFrame. unfold rows, selected. apply fmap_sublist.
  etrans; [apply sublist_filter|].
  replace (DataFrame.length frame)
    with (length d1 + (DataFrame.length frame - length d1)) by lia.
  rewrite seq_app. by apply sublist_inserts_r.
Qed.

End TransformerFacts.


(** ** A single frame under type include and match all *)

Section SingleFrame.
Import JsArray JsArrayFacts.
Context {environment : Environment}.

(** Under match all, from index 1 on, a negative decision stays. *)
Lemma filterLoop_all_keeps_negative includeRow frame filterIndex filters
    (d d' : JsArray.t) row :
  0 < filterIndex →
  get d row = Some (negb includeRow) →
  filterLoop includeRow true frame filterIndex filters d = Ok d' →
  get d' row = Some (negb includeRow).
Proof.
  revert filterIndex d.
  induction filters as [|filter rest IH]; intros filterIndex d Hindex Hget.
  - by intros [= <-].
  - rewrite filterLoop_cons.
    repeat case_match; try done; apply IH; try lia; try done.
    rewrite get_testRows. case_decide; [|done].
    unfold decideAll. rewrite Hget.
    destruct (test _ _); [|done]. cbn. case_decide; [lia|done].
Qed.

(** Under type include and match all, a row of the frame whose decision is
    [true] after the filter loop satisfies every filter that applied. *)
Lemma filterLoop_all_true_passes frame filterIndex filters (d d' : JsArray.t) row :
  row < DataFrame.length frame →
  filterLoop true true frame filterIndex filters d = Ok d' →
  get d' row = Some true →
  Forall (passes frame row) filters.
Proof.
  intros Hrow. revert filterIndex d.
  induction filters as [|filter rest IH]; intros filterIndex d; [by constructor|].
  rewrite filterLoop_cons. intros Hloop Hget.
  destruct (findField frame filter) as [field|] eqn:Hfield.
  2: { constructor; [|by eapply IH]. intros ?? Hfield'. congruence. }
  destruct (valueFiltersRegistry !! ValueFilter.filterType filter)
    as [info|] eqn:Hinfo; [|done].
  destruct (isValid (getInstance info (instanceOptions filter field)))
    eqn:Hvalid.
  2: { constructor; [|by eapply IH].
       intros field' info' Hfield' Hinfo'.
       rewrite Hfield in Hfield'. rewrite Hinfo in Hinfo'. congruence. }
  constructor; [|by eapply IH].
  intros field' info' Hfield' Hinfo' _.
  rewrite Hfield in Hfield'. rewrite Hinfo in Hinfo'.
  injection Hfield' as <-. injection Hinfo' as <-.
  destruct (test (getInstance info (instanceOptions filter field))
              (ArrayVector.get (Field.values field) row)) eqn:Htest; [done|].
  apply (filterLoop_all_keeps_negative true _ _ _ _ _ row) in Hloop;
    [cbn in Hloop; congruence|lia|].
  rewrite get_testRows. case_decide; [|lia].
  unfold decideAll. by rewrite Htest.
Qed.

Lemma testRows_pass_later frame filterIndex filterInstance field (d : JsArray.t) :
  filterIndex ≠ 0 →
  (∀ row, row < DataFrame.length frame →
     test filterInstance (ArrayVector.get (Field.values field) row) = true) →
  testRows true filterIndex filterInstance field true frame d = d.
Proof.
  intros Hindex. unfold testRows.
  induction (DataFrame.length frame) as [|n IH]; intros Hpass; [done|].
  rewrite seq_S, foldl_app, IH by (intros; apply Hpass; lia).
  cbn. unfold testRowAll. rewrite Hpass by lia. cbn. by case_decide.
Qed.

Lemma testRows_pass_first frame filterInstance field :
  (∀ row, row < DataFrame.length frame →
     test filterInstance (ArrayVector.get (Field.values field) row) = true) →
  testRows true 0 filterInstance field true frame [] =
  replicate (DataFrame.length frame) (Some true).
Proof.
  unfold testRows.
  induction (DataFrame.length frame) as [|n IH]; intros Hpass; [done|].
  rewrite seq_S, foldl_app, IH by (intros; apply Hpass; lia).
  cbn. unfold testRowAll. rewrite Hpass by lia. cbn.
  unfold set. rewrite length_replicate.
  destruct (decide (0 = 0)) as [_|]; [|done].
  destruct (decide (n < n)) as [|_]; [lia|].
  rewrite Nat.sub_diag. cbn [replicate app].
  by rewrite <- replicate_S_end.
Qed.


(** When every row of the frame satisfies every filter that applies, the
    filters past index 0 change nothing. *)
Lemma filterLoop_all_pass_later frame filterIndex filters (d d' : JsArray.t) :
  0 < filterIndex →
  (∀ row, row < DataFrame.length frame → Forall (passes frame row) filters) →
  filterLoop true true frame filterIndex filters d = Ok d' →
  d' = d.
Proof.
  revert filterIndex.
  induction filters as [|filter rest IH]; intros filterIndex Hindex Hpass.
  - by intros [= <-].
  - assert (Hrest : ∀ row, row < DataFrame.length frame →
                      Forall (passes frame row) rest).
    { intros row Hrow. by eapply Forall_cons_1, Hpass. }
    rewrite filterLoop_cons.
    destruct (findField frame filter) as [field|] eqn:Hfield;
      [|apply IH; [lia|done]].
    destruct (valueFiltersRegistry !! ValueFilter.filterType filter)
      as [info|] eqn:Hinfo; [|done].
    destruct (isValid (getInstance info (instanceOptions filter field)))
      eqn:Hvalid; [|apply IH; [lia|done]].
    rewrite testRows_pass_later; [apply IH; [lia|done]|lia|].
    intros row Hrow.
    destruct (Forall_cons_1 _ _ _ (Hpass row Hrow)) as [Hhead _].
    by apply Hhead.
Qed.

(** From the empty array, they leave it empty or decide every row of the
    frame [true]. *)
Lemma filterLoop_all_pass_first frame filters (d' : JsArray.t) :
  (∀ row, row < DataFrame.length frame → Forall (passes frame row) filters) →
  filterLoop true true frame 0 filters [] = Ok d' →
  d' = [] ∨ d' = replicate (DataFrame.length frame) (Some true).
Proof.
  destruct filters as [|filter rest]; intros Hpass; [intros [= <-]; by left|].
  assert (Hrest : ∀ row, row < DataFrame.length frame →
                    Forall (passes frame row) rest).
  { intros row Hrow. by eapply Forall_cons_1, Hpass. }
  rewrite filterLoop_cons.
  destruct (findField frame filter) as [field|] eqn:Hfield.
  2: { intros ->%filterLoop_all_pass_later; [by left|lia|done]. }
  destruct (valueFiltersRegistry !! ValueFilter.filterType filter)
    as [info|] eqn:Hinfo; [|done].
  destruct (isValid (getInstance info (instanceOptions filter field)))
    eqn:Hvalid.
  2: { intros ->%filterLoop_all_pass_later; [by left|lia|done]. }
  rewrite testRows_pass_first.
  - intros ->%filterLoop_all_pass_later; [by right|lia|done].
  - intros row Hrow.
    destruct (Forall_cons_1 _ _ _ (Hpass row Hrow)) as [Hhead _].
    by apply Hhead.
Qed.

Lemma filter_Forall_id {A} (P : A → Prop) `{∀ x, Decision (P x)} (l : list A) :
  Forall P l → filter P l = l.
Proof.
  induction 1 as [|x l Hx _ IH]; [done|].
  by rewrite filter_cons_True, IH.
Qed.

Lemma selected_replicate n : selected (replicate n (Some true)) = seq 0 n.
Proof.
  unfold selected. rewrite length_replicate.
  apply filter_Forall_id, Forall_forall. intros row [_ Hrow]%elem_of_seq.
  apply truthy_get. unfold get. by rewrite lookup_replicate_2 by lia.
Qed.

(** Copying every row of a frame that is itself a copy gives it back. *)
Lemma filteredFrame_replicate frame indices :
  let copy :=
    DataFrame.mk (project indices <$> DataFrame.fields frame) (length indices) in
  filteredFrame copy (replicate (length indices) (Some true)) = copy.
Proof.
  intros copy. rewrite filteredFrame_selected, selected_replicate.
  unfold copy. cbn. rewrite length_seq. f_equal.
  rewrite <- list_fmap_compose. apply list_fmap_ext. intros _ field _.
  unfold project. cbn. f_equal.
  apply list_eq. intros k. rewrite list_lookup_fmap.
  destruct (decide (k < length indices)) as [Hk|Hk].
  - rewrite lookup_seq_lt by done. cbn.
    unfold ArrayVector.get at 1.
    destruct (lookup_lt_is_Some_2 indices k Hk) as [row Hrow].
    by rewrite list_lookup_fmap, Hrow.
  - rewrite lookup_seq_ge by lia. cbn. symmetry.
    apply lookup_ge_None. rewrite length_fmap. lia.
Qed.

Section DisplayName.
Hypothesis display_name : displayNameIgnoresValues.

Lemma findField_project frame indices n filter :
  findField (DataFrame.mk (project indices <$> DataFrame.fields frame) n) filter =
  project indices <$> findField frame filter.
Proof.
  unfold findField. cbn [DataFrame.fields].
  induction (DataFrame.fields frame) as [|field fields IH]; [done|].
  cbn [fmap list_fmap find].
  replace (getFieldDisplayName (project indices field))
    with (getFieldDisplayName field) by (symmetry; apply display_name).
  destruct (bool_decide _); [done|apply IH].
Qed.

Lemma unknownKind_project frame indices n filter :
  unknownKind
    (DataFrame.mk (project indices <$> DataFrame.fields frame) n) filter →
  unknownKind frame filter.
Proof.
  intros (field' & Hfield' & Hnone). rewrite findField_project in Hfield'.
  destruct (findField frame filter) as [field|] eqn:Hfield; [|done].
  exists field. by rewrite Hfield.
Qed.

Lemma passes_project frame indices n filter k row :
  indices !! k = Some row →
  passes frame row filter →
  passes (DataFrame.mk (project indices <$> DataFrame.fields frame) n) k filter.
Proof.
  intros Hk Hpasses field' info Hfield' Hinfo Hvalid.
  rewrite findField_project in Hfield'.
  destruct (findField frame filter) as [field|] eqn:Hfield; [|done].
  injection Hfield' as <-.
  change (instanceOptions filter (project indices field))
    with (instanceOptions filter field) in *.
  replace (ArrayVector.get (Field.values (project indices field)) k)
    with (ArrayVector.get (Field.values field) row).
  - by apply Hpasses.
  - cbn. unfold ArrayVector.get at 2. by rewrite list_lookup_fmap, Hk.
Qed.

(** X16: for a single frame, under type include and match all, and with
    display names that do not depend on the values, applying the transformer
    to its own result gives that result again. *)
Lemma single_frame_idempotent options frame out :
  Options.type options = Some "include" →
  Options.match_ options = Some "all" →
  transformer options [frame] = Ok out →
  transformer options out = Ok out.
Proof.
  intros Htype Hmatch. unfold transformer. rewrite Htype, Hmatch.
  rewrite !bool_decide_eq_true_2 by done.
  destruct (decide (length (Options.valueFilters options) = 0));
    [by intros [= <-]|].
  cbn [frameLoop].
  destruct (filterLoop true true frame 0 (Options.valueFilters options) [])
    as [d|] eqn:Hd; [|done].
  cbn [bind fst snd frameLoop app].
  destruct (decide (0 < length d)) as [Hlen|Hlen]; intros [= <-].
  2: { cbn [frameLoop]. rewrite Hd. cbn [bind fst snd frameLoop].
       by destruct (decide (0 < length d)). }
  cbn [frameLoop]. rewrite filteredFrame_selected.
  set (copy := DataFrame.mk _ _).
  assert (Hpass : ∀ k, k < DataFrame.length copy →
            Forall (passes copy k) (Options.valueFilters options)).
  { intros k Hk. cbn in Hk.
    destruct (lookup_lt_is_Some_2 _ _ Hk) as [row Hrow].
    assert (Hget : get d row = Some true).
    { apply elem_of_selected, list_elem_of_lookup. eauto. }
    pose proof (get_Some_lt _ _ _ Hget) as Hlt.
    pose proof (filterLoop_length_le _ _ _ _ _ _ _ Hd) as Hle.
    cbn [length] in Hle.
    eapply Forall_impl.
    - eapply (filterLoop_all_true_passes frame); [|done..]. lia.
    - intros filter. by apply passes_project. }
  destruct (filterLoop true true copy 0 (Options.valueFilters options) [])
    as [d2|e] eqn:Hd2.
  2: { assert (Hthrow : ∃ e, filterLoop true true copy 0
                 (Options.valueFilters options) [] = Throw e) by eauto.
       apply filterLoop_throw_iff, Exists_exists in Hthrow
         as (filter & Hin & Hunknown%unknownKind_project).
       assert (Hthrow : ∃ e, filterLoop true true frame 0
                 (Options.valueFilters options) [] = Throw e).
       { apply filterLoop_throw_iff, Exists_exists. eauto. }
       destruct Hthrow as [e' He']. congruence. }
  cbn [bind fst snd].
  destruct (decide (0 < length d2)) as [Hlen2|Hlen2]; [|done].
  destruct (filterLoop_all_pass_first copy _ d2 Hpass Hd2) as [->| ->].
  - cbn in Hlen2. lia.
  - cbn [app]. do 2 f_equal. apply filteredFrame_replicate.
Qed.

End DisplayName.

End SingleFrame.

(** ** What the filter loop decides for a row *)

Section Decisions.
Import JsArray JsArrayFacts.
Context {environment : Environment}.

Lemma verdict_applicable frame filter :
  applicable frame filter →
  ∃ field info,
    findField frame filter = Some field ∧
    valueFiltersRegistry !! ValueFilter.filterType filter = Some info ∧
    isValid (getInstance info (instanceOptions filter field)) = true ∧
    ∀ row,
      verdict frame filter row =
      Some (test (getInstance info (instanceOptions filter field))
              (ArrayVector.get (Field.values field) row)).
Proof.
  intros (field & info & Hfield & Hinfo & Hvalid).
  exists field, info. split_and!; [done..|].
  intros row. unfold verdict. by rewrite Hfield, Hinfo, Hvalid.
Qed.

(** With every kind registered, the filter loop returns. *)
Lemma filterLoop_registered includeRow matchAll frame filterIndex filters
    (d : JsArray.t) :
  registered filters →
  ∃ d', filterLoop includeRow matchAll frame filterIndex filters d = Ok d'.
Proof.
  intros Hregistered.
  destruct (filterLoop includeRow matchAll frame filterIndex filters d)
    as [d'|e] eqn:Hloop; [eauto|].
  assert (Hthrow : ∃ e,
    filterLoop includeRow matchAll frame filterIndex filters d = Throw e)
    by eauto.
  apply filterLoop_throw_iff, Exists_exists in Hthrow
    as (filter & Hin & field & _ & Hnone).
  unfold registered in Hregistered. rewrite Forall_forall in Hregistered.
  destruct (Hregistered filter Hin) as [info Hinfo]. congruence.
Qed.

Lemma matchedAll_cons frame filter rest row :
  matchedAll frame (filter :: rest) row =
  default true (verdict frame filter row) && matchedAll frame rest row.
Proof. done. Qed.

Lemma matchedAny_cons frame filter rest row :
  matchedAny frame (filter :: rest) row =
  default false (verdict frame filter row) || matchedAny frame rest row.
Proof. done. Qed.

(** Past index 0 and under match all, a row of the frame keeps its decision
    while it satisfies the filters and gets the negative one otherwise. *)
Lemma filterLoop_all_later includeRow frame filterIndex filters
    (d d' : JsArray.t) row :
  0 < filterIndex →
  row < DataFrame.length frame →
  filterLoop includeRow true frame filterIndex filters d = Ok d' →
  get d' row =
  if matchedAll frame filters row then get d row else Some (negb includeRow).
Proof.
  intros Hindex Hrow. revert filterIndex d Hindex.
  induction filters as [|filter rest IH]; intros filterIndex d Hindex.
  - by intros [= <-].
  - rewrite filterLoop_cons, matchedAll_cons. unfold verdict.
    destruct (findField frame filter) as [field|]; [|apply IH; lia].
    destruct (valueFiltersRegistry !! _) as [info|]; [|done].
    cbn zeta. destruct (isValid _); [|apply IH; lia].
    intros Hrest. rewrite (IH _ _ (Nat.lt_0_succ filterIndex) Hrest).
    rewrite get_testRows. destruct (decide (row < _)); [|lia].
    unfold decideAll. cbn [default].
    destruct (test _ _); cbn.
    + by destruct (decide (filterIndex = 0)); [lia|].
    + by destruct (matchedAll frame rest row).
Qed.

(** Past index 0 and under match any, a row of the frame gets the positive
    decision when it satisfies a filter and keeps its decision otherwise. *)
Lemma filterLoop_any_later includeRow frame filterIndex filters
    (d d' : JsArray.t) row :
  0 < filterIndex →
  row < DataFrame.length frame →
  filterLoop includeRow false frame filterIndex filters d = Ok d' →
  get d' row =
  if matchedAny frame filters row then Some includeRow else get d row.
Proof.
  intros Hindex Hrow. revert filterIndex d Hindex.
  induction filters as [|filter rest IH]; intros filterIndex d Hindex.
  - by intros [= <-].
  - rewrite filterLoop_cons, matchedAny_cons. unfold verdict.
    destruct (findField frame filter) as [field|]; [|apply IH; lia].
    destruct (valueFiltersRegistry !! _) as [info|]; [|done].
    cbn zeta. destruct (isValid _); [|apply IH; lia].
    intros Hrest. rewrite (IH _ _ (Nat.lt_0_succ filterIndex) Hrest).
    rewrite get_testRows. destruct (decide (row < _)); [|lia].
    unfold decideAny. cbn [default].
    destruct (test _ _); cbn.
    + by destruct (matchedAny frame rest row).
    + by destruct (decide (filterIndex = 0)); [lia|].
Qed.

(** When the filter at index 0 reaches the row loop, every row of the frame
    is decided, and decided as [keeps] says, whatever the array held. *)
Lemma filterLoop_first_applies includeRow matchAll frame filter rest
    (d d' : JsArray.t) row :
  applicable frame filter →
  row < DataFrame.length frame →
  filterLoop includeRow matchAll frame 0 (filter :: rest) d = Ok d' →
  get d' row = Some (keeps includeRow matchAll frame (filter :: rest) row).
Proof.
  intros (field & info & Hfield & Hinfo & Hvalid & Hverdict)%verdict_applicable
    Hrow.
  rewrite filterLoop_cons, Hfield, Hinfo, Hvalid.
  unfold keeps. rewrite matchedAll_cons, matchedAny_cons, Hverdict.
  cbn [default].
  destruct matchAll; intros Hrest.
  - rewrite (filterLoop_all_later _ _ _ _ _ _ _ (Nat.lt_0_succ 0) Hrow Hrest).
    rewrite get_testRows. destruct (decide (row < _)); [|lia].
    unfold decideAll.
    destruct (test _ _), (matchedAll frame rest row), includeRow; done.
  - rewrite (filterLoop_any_later _ _ _ _ _ _ _ (Nat.lt_0_succ 0) Hrow Hrest).
    rewrite get_testRows. destruct (decide (row < _)); [|lia].
    unfold decideAny.
    destruct (test _ _), (matchedAny frame rest row), includeRow; done.
Qed.

Lemma filter_ext_Forall {A} (P Q : A → Prop)
    `{∀ x, Decision (P x)} `{∀ x, Decision (Q x)} (l : list A) :
  Forall (λ x, P x ↔ Q x) l → filter P l = filter Q l.
Proof.
  induction 1 as [|x l Hx _ IH]; [done|].
  rewrite !filter_cons, IH.
  destruct (decide (P x)), (decide (Q x)); tauto.
Qed.

(** The rows selected from an array that holds a definite decision for
    exactly the first [n] rows. *)
Lemma selected_decided (d : JsArray.t) n (decision : nat → bool) :
  length d = n →
  (∀ row, row < n → get d row = Some (decision row)) →
  selected d = filter (λ row, decision row = true) (seq 0 n).
Proof.
  intros <- Hget. unfold selected.
  apply filter_ext_Forall, Forall_forall. intros row [_ Hrow]%elem_of_seq.
  rewrite truthy_get, Hget by lia. split; congruence.
Qed.

(** The loop of a frame to which the filter at index 0 applies, entered with
    an array no longer than the frame. *)
Lemma filterLoop_decided includeRow matchAll frame filter rest (d : JsArray.t) :
  applicable frame filter →
  registered (filter :: rest) →
  length d ≤ DataFrame.length frame →
  ∃ d',
    filterLoop includeRow matchAll frame 0 (filter :: rest) d = Ok d' ∧
    length d' = DataFrame.length frame ∧
    selected d' = keptRows includeRow matchAll frame (filter :: rest).
Proof.
  intros Happlicable Hregistered Hlen.
  destruct (filterLoop_registered includeRow matchAll frame 0 _ d Hregistered)
    as [d' Hd']. exists d'.
  assert (Hget : ∀ row, row < DataFrame.length frame →
            get d' row = Some (keeps includeRow matchAll frame (filter :: rest) row)).
  { intros row Hrow. by eapply filterLoop_first_applies. }
  assert (Hlen' : length d' = DataFrame.length frame).
  { pose proof (filterLoop_length_le _ _ _ _ _ _ _ Hd') as Hle.
    destruct (DataFrame.length frame) as [|n] eqn:Hn; [lia|].
    pose proof (get_Some_lt _ _ _ (Hget n (Nat.lt_succ_diag_r n))). lia. }
  split_and!; [done..|].
  by apply selected_decided.
Qed.

End Decisions.

(** ** The rows the transformer keeps *)

Section Kept.
Import JsArray JsArrayFacts.
Context {environment : Environment}.

Lemma frameLoop_decided includeRow matchAll filter rest frames processed
    (d : JsArray.t) :
  Forall (λ frame, applicable frame filter) frames →
  registered (filter :: rest) →
  neverShorter (length d) frames →
  ∃ outs (d' : JsArray.t),
    frameLoop includeRow matchAll (filter :: rest) frames processed d =
    Ok (processed ++ outs, d') ∧
    Forall2
      (λ frame out, ∃ dk : JsArray.t,
         out = filteredFrame frame dk ∧
         selected dk = keptRows includeRow matchAll frame (filter :: rest))
      frames outs ∧
    Forall (λ frame, DataFrame.length frame ≤ length d') frames.
Proof.
  intros Happlicable Hregistered. revert processed d.
  induction Happlicable as [|frame frames Hframe _ IH];
    intros processed d Hlengths.
  - exists [], d. by rewrite app_nil_r.
  - destruct Hlengths as [Hlen Hlengths].
    destruct (filterLoop_decided includeRow matchAll frame filter rest d
                Hframe Hregistered Hlen) as (d1 & Hd1 & Hlen1 & Hselected).
    rewrite <- Hlen1 in Hlengths.
    destruct (IH (processed ++ [filteredFrame frame d1]) d1 Hlengths)
      as (outs & d' & Hloop & Houts & Hbound).
    exists (filteredFrame frame d1 :: outs), d'.
    cbn [frameLoop]. rewrite Hd1. cbn [bind].
    rewrite Hloop, <- app_assoc. split_and!; [done|..].
    + constructor; [eauto|done].
    + constructor; [|done].
      destruct (frameLoop_Ok _ _ _ _ _ _ _ _ Hloop) as (_ & _ & _ & Hle). lia.
Qed.

(** X1: when the filter at index 0 reaches the row loop of every frame, all
    kinds are registered and no frame is shorter than the one before it, the
    transformer returns, for every frame, a frame with the same fields whose
    rows are the frame's rows that [keeps] selects, in their order: under
    match all the rows that satisfy every applicable filter, under match any
    those that satisfy one, and the other rows when [type] is not
    'include'. *)
Theorem rows_kept_when_first_filter_applies options data filter rest :
  Options.valueFilters options = filter :: rest →
  Forall (λ frame, applicable frame filter) data →
  registered (filter :: rest) →
  neverShorter 0 data →
  ∃ out,
    transformer options data = Ok out ∧
    Forall2
      (λ frame oframe,
         sameShape frame oframe ∧
         rows oframe =
         rowAt frame <$>
           keptRows (bool_decide (Options.type options = Some "include"))
             (bool_decide (Options.match_ options = Some "all"))
             frame (filter :: rest))
      data out.
Proof.
  intros Hfilters Happlicable Hregistered Hlengths.
  unfold transformer. rewrite Hfilters. cbn [length].
  destruct (decide (S (length rest) = 0)) as [|_]; [lia|].
  destruct (frameLoop_decided
              (bool_decide (Options.type options = Some "include"))
              (bool_decide (Options.match_ options = Some "all"))
              filter rest data [] [] Happlicable Hregistered Hlengths)
    as (outs & d' & -> & Houts & Hbound).
  cbn [bind fst snd app].
  destruct (decide (0 < length d')) as [Hlen|Hlen]; eexists; split; try done.
  - eapply Forall2_impl; [done|].
    intros frame oframe (dk & -> & <-).
    split; [apply sameShape_filteredFrame|apply rows_filteredFrame].
  - apply Forall_Forall2_diag. eapply Forall_impl; [done|].
    intros frame Hle. cbn beta in Hle. split; [apply sameShape_refl|].
    unfold rows, keptRows.
    by replace (DataFrame.length frame) with 0 by lia.
Qed.

(** A single frame to which the filter at index 0 applies. *)
Lemma single_frame_decided includeRow matchAll frame filter rest :
  applicable frame filter →
  registered (filter :: rest) →
  ∃ (d : JsArray.t) oframe,
    frameLoop includeRow matchAll (filter :: rest) [frame] [] [] =
    Ok ([filteredFrame frame d], d) ∧
    oframe = (if decide (0 < length d) then filteredFrame frame d else frame) ∧
    rows oframe =
    rowAt frame <$> keptRows includeRow matchAll frame (filter :: rest).
Proof.
  intros Happlicable Hregistered.
  destruct (filterLoop_decided includeRow matchAll frame filter rest []
              Happlicable Hregistered) as (d & Hd & Hlen & Hselected);
    [cbn; lia|].
  exists d. eexists. cbn [frameLoop]. rewrite Hd. cbn [bind app].
  split_and!; [done..|].
  destruct (decide (0 < length d)).
  - by rewrite rows_filteredFrame, Hselected.
  - unfold rows, keptRows.
    by replace (DataFrame.length frame) with 0 by lia.
Qed.

(** X2: for a single frame to which the filter at index 0 applies, the rows
    returned with [type] 'exclude' are exactly the rows dropped with [type]
    'include' (same filters, same [match]): together the two results hold
    every row of the frame once. *)
Theorem exclude_returns_what_include_drops filters match_ frame filter rest :
  filters = filter :: rest →
  applicable frame filter →
  registered filters →
  ∃ included excluded,
    transformer (Options.mk filters (Some "include") match_) [frame] =
    Ok [included] ∧
    transformer (Options.mk filters (Some "exclude") match_) [frame] =
    Ok [excluded] ∧
    rows included ++ rows excluded ≡ₚ rows frame.
Proof.
  intros -> Happlicable Hregistered.
  unfold transformer.
  cbn [Options.valueFilters Options.type Options.match_ length].
  destruct (decide (S (length rest) = 0)) as [|_]; [lia|].
  change (bool_decide (Some "include" = Some "include")) with true.
  change (bool_decide (Some "exclude" = Some "include")) with false.
  set (matchAll := bool_decide (match_ = Some "all")).
  destruct (single_frame_decided true matchAll frame filter rest
              Happlicable Hregistered) as (d1 & included & -> & -> & Hrows1).
  destruct (single_frame_decided false matchAll frame filter rest
              Happlicable Hregistered) as (d2 & excluded & -> & -> & Hrows2).
  cbn [bind fst snd].
  exists (if decide (0 < length d1) then filteredFrame frame d1 else frame),
    (if decide (0 < length d2) then filteredFrame frame d2 else frame).
  split_and!.
  - by destruct (decide (0 < length d1)).
  - by destruct (decide (0 < length d2)).
  - rewrite Hrows1, Hrows2, <- fmap_app. unfold rows. apply fmap_Permutation.
    unfold keptRows. rewrite <- (filter_app_complement
      (λ row, keeps true matchAll frame (filter :: rest) row = true)
      (seq 0 (DataFrame.length frame))) at 3.
    apply Permutation_app; [done|].
    erewrite filter_ext_Forall; [done|].
    apply Forall_forall. intros row _. unfold keeps.
    by destruct (if matchAll then _ else _).
Qed.

Lemma matchedAll_Permutation frame filters1 filters2 row :
  filters1 ≡ₚ filters2 →
  matchedAll frame filters1 row = matchedAll frame filters2 row.
Proof.
  induction 1 as [|filter l1 l2 _ IH|first second l|l1 l2 l3 _ IH1 _ IH2].
  - done.
  - by rewrite !matchedAll_cons, IH.
  - rewrite !matchedAll_cons.
    by destruct (default true _), (default true _).
  - by rewrite IH1.
Qed.

Lemma matchedAny_Permutation frame filters1 filters2 row :
  filters1 ≡ₚ filters2 →
  matchedAny frame filters1 row = matchedAny frame filters2 row.
Proof.
  induction 1 as [|filter l1 l2 _ IH|first second l|l1 l2 l3 _ IH1 _ IH2].
  - done.
  - by rewrite !matchedAny_cons, IH.
  - rewrite !matchedAny_cons.
    by destruct (default false _), (default false _).
  - by rewrite IH1.
Qed.

Lemma keptRows_Permutation includeRow matchAll frame filters1 filters2 :
  filters1 ≡ₚ filters2 →
  keptRows includeRow matchAll frame filters1 =
  keptRows includeRow matchAll frame filters2.
Proof.
  intros Hperm. unfold keptRows. apply filter_ext_Forall, Forall_forall.
  intros row _. unfold keeps.
  by rewrite (matchedAll_Permutation _ _ _ _ Hperm),
    (matchedAny_Permutation _ _ _ _ Hperm).
Qed.

(** X13: the order of the filters matters only through the filter at index
    0.  For a single frame, two orders of the same filters whose first
    filters both reach the row loop give the same result. *)
Theorem order_matters_only_at_index_0 type match_ frame
    filter1 rest1 filter2 rest2 :
  filter1 :: rest1 ≡ₚ filter2 :: rest2 →
  applicable frame filter1 →
  applicable frame filter2 →
  registered (filter1 :: rest1) →
  ∃ out,
    transformer (Options.mk (filter1 :: rest1) type match_) [frame] = Ok out ∧
    transformer (Options.mk (filter2 :: rest2) type match_) [frame] = Ok out.
Proof.
  intros Hperm Happlicable1 Happlicable2 Hregistered1.
  assert (Hregistered2 : registered (filter2 :: rest2)).
  { unfold registered in *. by rewrite <- Hperm. }
  unfold transformer.
  cbn [Options.valueFilters Options.type Options.match_ length].
  destruct (decide (S (length rest1) = 0)) as [|_]; [lia|].
  destruct (decide (S (length rest2) = 0)) as [|_]; [lia|].
  set (includeRow := bool_decide (type = Some "include")).
  set (matchAll := bool_decide (match_ = Some "all")).
  destruct (filterLoop_decided includeRow matchAll frame filter1 rest1 []
              Happlicable1 Hregistered1) as (d1 & Hd1 & Hlen1 & Hselected1);
    [cbn; lia|].
  destruct (filterLoop_decided includeRow matchAll frame filter2 rest2 []
              Happlicable2 Hregistered2) as (d2 & Hd2 & Hlen2 & Hselected2);
    [cbn; lia|].
  cbn [frameLoop]. rewrite Hd1, Hd2. cbn [bind fst snd app].
  rewrite Hlen1, Hlen2, !filteredFrame_selected, Hselected1, Hselected2.
  rewrite (keptRows_Permutation _ _ _ _ _ Hperm).
  destruct (decide (0 < DataFrame.length frame)); eauto.
Qed.

(** At index 0 the two row loops do the same. *)
Lemma testRows_first_filter includeRow filterInstance field frame
    (d : JsArray.t) :
  testRows includeRow 0 filterInstance field true frame d =
  testRows includeRow 0 filterInstance field false frame d.
Proof.
  unfold testRows. revert d.
  induction (seq 0 (DataFrame.length frame)) as [|row rows IH]; intros d;
    [done|].
  cbn [foldl]. rewrite IH. f_equal.
  unfold testRowAll, testRowAny. by destruct (test _ _).
Qed.

(** X14: with a single filter, [match] makes no difference: the transformer
    returns (or throws) the same under 'all', 'any' and anything else, on
    every input. *)
Theorem match_is_irrelevant_for_one_filter filter type match1 match2 data :
  transformer (Options.mk [filter] type match1) data =
  transformer (Options.mk [filter] type match2) data.
Proof.
  unfold transformer.
  cbn [Options.valueFilters Options.type Options.match_ length].
  set (includeRow := bool_decide (type = Some "include")).
  assert (Hloop : ∀ matchAll frames processed (d : JsArray.t),
    frameLoop includeRow matchAll [filter] frames processed d =
    frameLoop includeRow true [filter] frames processed d).
  { intros matchAll frames. induction frames as [|frame frames IH];
      intros processed d; [done|].
    cbn [frameLoop]. rewrite !filterLoop_cons.
    destruct (findField frame filter) as [field|];
      [|cbn [filterLoop bind]; apply IH].
    destruct (valueFiltersRegistry !! _) as [info|]; [|done].
    destruct (isValid _); cbn [filterLoop bind]; [|apply IH].
    destruct matchAll; [apply IH|].
    rewrite <- testRows_first_filter. apply IH. }
  by rewrite (Hloop (bool_decide (match1 = _))),
    (Hloop (bool_decide (match2 = _))).
Qed.


End Kept.

(** ** Filters that do nothing *)

Section Inert.
Import JsArray JsArrayFacts.
Context {environment : Environment}.

Lemma selected_none (d : JsArray.t) :
  (∀ row, get d row ≠ Some true) → selected d = [].
Proof.
  intros Hget. unfold selected.
  induction (seq 0 (length d)) as [|row rows IH]; [done|].
  rewrite filter_cons_False; [done|]. intros Htruthy%truthy_get. by eapply Hget.
Qed.

Lemma filterLoop_skipped_first includeRow matchAll frame filter rest
    (d : JsArray.t) :
  skipped frame filter →
  filterLoop includeRow matchAll frame 0 (filter :: rest) d =
  filterLoop includeRow matchAll frame 1 rest d.
Proof.
  intros Hskipped. rewrite filterLoop_cons.
  destruct (findField frame filter) as [field|] eqn:Hfield; [|done].
  destruct (Hskipped field Hfield) as (info & -> & ->). done.
Qed.

(** X3: for a single frame for which the filter at index 0 is skipped, under
    type 'include' with match 'all', and under the two other values
    together, no later filter seeds a decision: the transformer returns the
    frame itself or a frame without rows, whatever the later filters say. *)
Theorem skipped_first_filter_keeps_no_row options frame filter rest :
  Options.valueFilters options = filter :: rest →
  skipped frame filter →
  registered rest →
  (Options.type options = Some "include" ↔ Options.match_ options = Some "all") →
  ∃ oframe,
    transformer options [frame] = Ok [oframe] ∧
    (oframe = frame ∨ DataFrame.length oframe = 0 ∧ rows oframe = []).
Proof.
  intros Hfilters Hskipped Hregistered Hpolicy.
  unfold transformer. rewrite Hfilters. cbn [length frameLoop].
  destruct (decide (S (length rest) = 0)) as [|_]; [lia|].
  set (includeRow := bool_decide (Options.type options = Some "include")).
  set (matchAll := bool_decide (Options.match_ options = Some "all")).
  assert (Hsame : matchAll = includeRow).
  { unfold matchAll, includeRow. apply bool_decide_ext. by symmetry. }
  rewrite filterLoop_skipped_first by done.
  destruct (filterLoop_registered includeRow matchAll frame 1 rest []
              Hregistered) as [d Hd].
  rewrite Hd. cbn [bind fst snd app].
  destruct (decide (0 < length d)); eexists; split; try done; [|by left].
  right.
  assert (Hnone : selected d = []).
  { apply selected_none. intros row.
    destruct (decide (row < DataFrame.length frame)) as [Hrow|Hrow].
    - rewrite Hsame in Hd. destruct includeRow.
      + rewrite (filterLoop_all_later _ _ _ _ _ _ _ (Nat.lt_0_succ 0) Hrow Hd).
        by destruct (matchedAll frame rest row).
      + rewrite (filterLoop_any_later _ _ _ _ _ _ _ (Nat.lt_0_succ 0) Hrow Hd).
        by destruct (matchedAny frame rest row).
    - rewrite (filterLoop_get_ge _ _ _ _ _ _ _ _ Hd) by lia. done. }
  split.
  - by rewrite filteredFrame_selected, Hnone.
  - by rewrite rows_filteredFrame, Hnone.
Qed.

Lemma findField_no_name frame filter :
  ValueFilter.fieldName filter = None → findField frame filter = None.
Proof.
  intros Hname. unfold findField. rewrite Hname.
  by induction (DataFrame.fields frame).
Qed.

(** X4: filters that name no field never reach the registry and never
    decide a row: with only such filters, as in [defaultOptions], the
    transformer returns its input, whatever the registry holds. *)
Theorem filters_without_field_name_return_input options data :
  Forall (λ filter, ValueFilter.fieldName filter = None)
    (Options.valueFilters options) →
  transformer options data = Ok data.
Proof.
  intros Hnames. unfold transformer.
  destruct (decide (length (Options.valueFilters options) = 0)); [done|].
  rewrite frameLoop_skipped; [cbn; by destruct (decide (0 < 0)); [lia|]|].
  apply Forall_forall. intros frame _.
  eapply Forall_impl; [done|]. intros filter Hname field Hfield.
  rewrite findField_no_name in Hfield by done. done.
Qed.

Lemma testRows_no_rows includeRow filterIndex filterInstance field matchAll frame
    (d : JsArray.t) :
  DataFrame.length frame = 0 →
  testRows includeRow filterIndex filterInstance field matchAll frame d = d.
Proof. intros Hlen. unfold testRows. rewrite Hlen. by destruct matchAll. Qed.

Lemma filterLoop_no_rows includeRow matchAll frame filterIndex filters
    (d d' : JsArray.t) :
  DataFrame.length frame = 0 →
  filterLoop includeRow matchAll frame filterIndex filters d = Ok d' →
  d' = d.
Proof.
  intros Hlen. revert filterIndex.
  induction filters as [|filter rest IH]; intros filterIndex.
  - by intros [= <-].
  - rewrite filterLoop_cons.
    destruct (findField frame filter) as [field|]; [|apply IH].
    destruct (valueFiltersRegistry !! _) as [info|]; [|done].
    destruct (isValid _); [|apply IH].
    rewrite testRows_no_rows by done. apply IH.
Qed.

Lemma frameLoop_no_rows includeRow matchAll filters frames processed
    (d : JsArray.t) processed' (d' : JsArray.t) :
  Forall (λ frame, DataFrame.length frame = 0) frames →
  frameLoop includeRow matchAll filters frames processed d = Ok (processed', d') →
  d' = d.
Proof.
  intros Hlens. revert processed.
  induction Hlens as [|frame frames Hlen _ IH]; intros processed.
  - by intros [= _ <-].
  - cbn [frameLoop].
    destruct (filterLoop includeRow matchAll frame 0 filters d) as [d1|] eqn:Hd1;
      [|done].
    apply filterLoop_no_rows in Hd1 as ->; [|done]. cbn [bind]. apply IH.
Qed.

(** X5: when no frame of the input has a row, the transformer decides
    nothing: it throws (on a kind that is not registered) or returns the
    input frames themselves, not emptied copies of them. *)
Theorem frames_without_rows_are_returned options data :
  Forall (λ frame, DataFrame.length frame = 0) data →
  transformer options data = Ok data ∨
  ∃ e, transformer options data = Throw e.
Proof.
  intros Hlens. unfold transformer.
  destruct (decide (length (Options.valueFilters options) = 0)); [by left|].
  destruct (frameLoop _ _ _ data [] []) as [[processed d]|e] eqn:Hloop;
    [|right; eauto].
  apply frameLoop_no_rows in Hloop as ->; [|done]. by left.
Qed.

End Inert.

(** ** The editor *)

Section EditorFacts.
Context {environment : Environment} {editor : EditorEnvironment}.

Lemma elem_of_getFieldsByName name data field :
  field ∈ getFieldsByName (Some name) data ↔
  ∃ frame,
    frame ∈ data ∧ field ∈ DataFrame.fields frame ∧
    getFieldDisplayNameIn field frame data = name.
Proof.
  unfold getFieldsByName. rewrite list_elem_of_bind. split.
  - intros (frame & [Hname Hfield]%list_elem_of_filter & Hframe). eauto.
  - intros (frame & Hframe & Hfield & Hname). exists frame.
    by rewrite list_elem_of_filter.
Qed.

(** X6: a field found by [getFieldByName] is a field of one of the frames,
    and its display name there is the name asked for. *)
Theorem getFieldByName_found fieldName data field :
  getFieldByName fieldName data = Some field →
  ∃ name frame,
    fieldName = Some name ∧ frame ∈ data ∧
    field ∈ DataFrame.fields frame ∧
    getFieldDisplayNameIn field frame data = name.
Proof.
  unfold getFieldByName. destruct fieldName as [name|]; [|done].
  intros Hhead%head_Some_elem_of%elem_of_getFieldsByName.
  destruct Hhead as (frame & ? & ? & ?). eauto 6.
Qed.

(** X7: [getFieldByName] returns [null] exactly when the name is [null] or no
    field of any frame has it as its display name. *)
Theorem getFieldByName_null_iff fieldName data :
  getFieldByName fieldName data = None ↔
  fieldName = None ∨
  ∀ frame field,
    frame ∈ data → field ∈ DataFrame.fields frame →
    Some (getFieldDisplayNameIn field frame data) ≠ fieldName.
Proof.
  unfold getFieldByName. destruct fieldName as [name|]; [|by split; auto].
  rewrite head_None. split.
  - intros Hnil. right. intros frame field Hframe Hfield [= Hname].
    assert (Hin : field ∈ getFieldsByName (Some name) data)
      by (apply elem_of_getFieldsByName; eauto).
    rewrite Hnil in Hin. by apply not_elem_of_nil in Hin.
  - intros [|Hnone]; [done|].
    destruct (getFieldsByName (Some name) data) as [|field fields] eqn:Hfields;
      [done|].
    assert (Hin : field ∈ getFieldsByName (Some name) data)
      by (rewrite Hfields; apply list_elem_of_here).
    apply elem_of_getFieldsByName in Hin as (frame & Hframe & Hfield & Hname).
    destruct (Hnone frame field Hframe Hfield). by rewrite Hname.
Qed.

Lemma elem_of_getAllFieldInfoFromDataFrames input info :
  info ∈ getAllFieldInfoFromDataFrames input ↔
  ∃ frame field,
    frame ∈ input ∧ field ∈ DataFrame.fields frame ∧
    info = FieldInfo.mk (getFieldDisplayNameIn field frame input)
             (Field.type field).
Proof.
  unfold getAllFieldInfoFromDataFrames. rewrite list_elem_of_bind. split.
  - intros (frame & (field & -> & Hfield)%list_elem_of_fmap & Hframe). eauto.
  - intros (frame & field & Hframe & Hfield & ->). exists frame.
    split; [|done]. apply list_elem_of_fmap. eauto.
Qed.

(** X8: the names offered for selection are exactly the display names of the
    fields whose type is not [time]; label and value of an option agree. *)
Theorem fieldNameOptions_spec input option :
  option ∈ fieldNameOptions input ↔
  SelectableValue.label option = SelectableValue.value option ∧
  ∃ frame field,
    frame ∈ input ∧ field ∈ DataFrame.fields frame ∧
    Field.type field ≠ FieldType.time ∧
    getFieldDisplayNameIn field frame input = SelectableValue.value option.
Proof.
  unfold fieldNameOptions. rewrite list_elem_of_fmap.
  setoid_rewrite list_elem_of_filter.
  setoid_rewrite elem_of_getAllFieldInfoFromDataFrames. split.
  - intros (info & -> & Htype & frame & field & Hframe & Hfield & ->).
    cbn in *. eauto 8.
  - intros (Hlabel & frame & field & Hframe & Hfield & Htype & Hname).
    exists (FieldInfo.mk (getFieldDisplayNameIn field frame input)
              (Field.type field)).
    destruct option as [label value]. cbn in *. subst.
    split_and!; [done..|eauto].
Qed.

(** X9: every name offered for selection resolves: [getFieldByName] finds a
    field for it, so the row of a filter with that name is given that
    field's type and not the fallback [other] for a missing field. *)
Theorem offered_names_resolve input option :
  option ∈ fieldNameOptions input →
  ∃ field,
    getFieldByName (Some (SelectableValue.value option)) input = Some field ∧
    rowFieldType (Some (SelectableValue.value option)) input = Field.type field.
Proof.
  unfold fieldNameOptions. rewrite list_elem_of_fmap.
  intros (info & -> & [_ Hinfo]%list_elem_of_filter).
  apply elem_of_getAllFieldInfoFromDataFrames in Hinfo
    as (frame & field & Hframe & Hfield & ->).
  cbn. unfold rowFieldType, getFieldByName.
  destruct (head (getFieldsByName _ input)) as [found|] eqn:Hfound; [eauto|].
  apply head_None in Hfound.
  assert (Hin : field ∈ getFieldsByName
                  (Some (getFieldDisplayNameIn field frame input)) input)
    by (apply elem_of_getFieldsByName; eauto).
  rewrite Hfound in Hin. by apply not_elem_of_nil in Hin.
Qed.

(** X10: deleting the condition that "Add condition" has just appended
    gives the options back. *)
Theorem delete_added_filter options :
  onDeleteFilter (length (Options.valueFilters options)) (onAddFilter options) =
  options.
Proof.
  destruct options as [filters type match_]. unfold onDeleteFilter, onAddFilter.
  cbn. f_equal.
  by rewrite (delete_middle filters []), app_nil_r.
Qed.

Lemma filterLoop_append_no_name includeRow matchAll frame filterIndex filters
    filter (d : JsArray.t) :
  ValueFilter.fieldName filter = None →
  filterLoop includeRow matchAll frame filterIndex (filters ++ [filter]) d =
  filterLoop includeRow matchAll frame filterIndex filters d.
Proof.
  intros Hname. revert filterIndex d.
  induction filters as [|first rest IH]; intros filterIndex d.
  - cbn [app]. by rewrite filterLoop_cons, findField_no_name.
  - cbn [app]. rewrite !filterLoop_cons.
    destruct (findField frame first) as [field|]; [|apply IH].
    destruct (valueFiltersRegistry !! _) as [info|]; [|done].
    destruct (isValid _); apply IH.
Qed.

Lemma frameLoop_append_no_name includeRow matchAll filters filter frames
    processed (d : JsArray.t) :
  ValueFilter.fieldName filter = None →
  frameLoop includeRow matchAll (filters ++ [filter]) frames processed d =
  frameLoop includeRow matchAll filters frames processed d.
Proof.
  intros Hname. revert processed d.
  induction frames as [|frame frames IH]; intros processed d; [done|].
  cbn [frameLoop]. rewrite filterLoop_append_no_name by done.
  destruct (filterLoop includeRow matchAll frame 0 filters d); [|done].
  cbn [bind]. apply IH.
Qed.

(** X11: the condition that "Add condition" appends names no field, and so
    the transformer returns the same for the new options as for the old
    ones, on every input. *)
Theorem added_filter_changes_nothing options data :
  transformer (onAddFilter options) data = transformer options data.
Proof.
  unfold transformer, onAddFilter.
  cbn [Options.valueFilters Options.type Options.match_].
  rewrite length_app. cbn [length].
  destruct (decide (length (Options.valueFilters options) + 1 = 0)); [lia|].
  rewrite frameLoop_append_no_name by done.
  destruct (decide (length (Options.valueFilters options) = 0)) as [Hnil|];
    [|done].
  apply length_zero_iff_nil in Hnil. rewrite Hnil.
  rewrite frameLoop_skipped by (apply Forall_forall; intros; constructor).
  cbn. by destruct (decide (0 < 0)); [lia|].
Qed.

(** X12: of the three markers of an editor row at most one is set: a row
    whose field name is marked has neither kind nor expression marked, and a
    row whose kind is marked has no expression marked; and the expression is
    only marked when the instance is not valid. *)
Theorem row_markers_exclude_each_other selectable config fieldType flags :
  rowFlags selectable config fieldType = Ok flags →
  (fieldNameInvalid flags = true →
   filterTypeInvalid flags = false ∧ filterExpressionInvalid flags = false) ∧
  (filterTypeInvalid flags = true → filterExpressionInvalid flags = false) ∧
  (filterExpressionInvalid flags = true →
   ∃ info,
     valueFiltersRegistry !! ValueFilter.filterType config = Some info ∧
     isValid
       (getInstance info
          (InstanceOptions.mk
             (ValueFilter.filterExpression config)
             (ValueFilter.filterExpression2 config)
             (ValueFilter.filterArgs config) fieldType)) = false).
Proof.
  unfold rowFlags, Registry.get.
  destruct (valueFiltersRegistry !! ValueFilter.filterType config)
    as [info|]; [|done].
  cbn [bind]. intros [= <-]. cbn [fieldNameInvalid filterTypeInvalid
    filterExpressionInvalid].
  set (nameInvalid := bool_decide _ && negb _).
  set (typeInvalid := negb nameInvalid && _).
  split_and!.
  - intros ->. unfold typeInvalid. cbn. split; [done|].
    by rewrite !andb_false_r.
  - intros ->. cbn. by rewrite !andb_false_r.
  - intros Hexpression. exists info. split; [done|].
    apply andb_true_iff in Hexpression as [_ Hvalid].
    by apply negb_true_iff in Hvalid.
Qed.

End EditorFacts.
(** ** The sample environment *)

Section Sample.
Local Existing Instance sampleEnvironment.

(** C6 at the sample environment. *)
Lemma scenario_status_equals_ok_sample :
  transformer (include_all [equalsFilter "status" "ok"]) [statusFrame] =
  Ok [DataFrame.mk [stringField "status" ["ok"; "ok"]] 2] ∧
  transformer
    (Options.mk [equalsFilter "status" "ok"] (Some "exclude") (Some "all"))
    [statusFrame] =
  Ok [DataFrame.mk [stringField "status" ["fail"; "fail"]] 2].
Proof.
  apply (scenario_status_equals_ok
           (stringField "status" ["ok"; "fail"; "ok"; "fail"])
           "equals" equalsInfo None []);
    reflexivity.
Defined.

(** C1, on the code: the decision array is not reset between frames.  The
    filter names [status], which [hostFrame] does not have.  Alone,
    [hostFrame] comes back as it is; after [statusFrame] it is cut down to
    the rows that [statusFrame] decided to keep; before [statusFrame] it
    loses every row. *)
Theorem decisions_carry_over_to_next_frame :
  transformer (include_all [equalsFilter "status" "ok"]) [hostFrame] =
  Ok [hostFrame] ∧
  transformer (include_all [equalsFilter "status" "ok"]) [statusFrame; hostFrame] =
  Ok [DataFrame.mk [stringField "status" ["ok"; "ok"]] 2;
      DataFrame.mk [stringField "host" ["a"; "c"]] 2] ∧
  transformer (include_all [equalsFilter "status" "ok"]) [hostFrame; statusFrame] =
  Ok [DataFrame.mk [stringField "host" []] 0;
      DataFrame.mk [stringField "status" ["ok"; "ok"]] 2].
Proof. by vm_compute. Qed.

(** C2, on the code: only the filter at index 0 seeds a decision.  With the
    unconfigured default filter in front, which is skipped for every frame,
    "status equals ok" is the first filter that applies, yet under match all
    the matching rows are not seeded and under match any the failing rows are
    not: both calls return no row, where the filter alone keeps two. *)
Theorem first_applicable_filter_does_not_seed :
  transformer (include_all [equalsFilter "status" "ok"]) [statusFrame] =
  Ok [DataFrame.mk [stringField "status" ["ok"; "ok"]] 2] ∧
  transformer (include_all [defaultFilter; equalsFilter "status" "ok"])
    [statusFrame] =
  Ok [DataFrame.mk [stringField "status" []] 0] ∧
  transformer (exclude_any [equalsFilter "status" "ok"]) [statusFrame] =
  Ok [DataFrame.mk [stringField "status" ["fail"; "fail"]] 2] ∧
  transformer (exclude_any [defaultFilter; equalsFilter "status" "ok"])
    [statusFrame] =
  Ok [DataFrame.mk [stringField "status" []] 0].
Proof. by vm_compute. Qed.

(** C3 fails as stated: with [type] unset the call keeps the rows that
    type include drops, and with [match] unset it keeps rows that match all
    drops. *)
Lemma unset_options_are_not_the_defaults :
  transformer (Options.mk [equalsFilter "status" "ok"] None (Some "all"))
    [statusFrame] ≠
  transformer (include_all [equalsFilter "status" "ok"]) [statusFrame] ∧
  transformer
    (Options.mk [equalsFilter "status" "ok"; equalsFilter "host" "b"]
       (Some "include") None)
    [twoFieldFrame] ≠
  transformer (include_all [equalsFilter "status" "ok"; equalsFilter "host" "b"])
    [twoFieldFrame].
Proof. split; vm_compute; discriminate. Qed.

(** C3 as amended, at options with neither property set. *)
Lemma unset_type_excludes_unset_match_is_any_sample :
  transformer (Options.mk [equalsFilter "status" "ok"] None None) [statusFrame] =
  transformer (Options.mk [equalsFilter "status" "ok"] (Some "exclude") None)
    [statusFrame] ∧
  transformer (Options.mk [equalsFilter "status" "ok"] None None) [statusFrame] =
  transformer (Options.mk [equalsFilter "status" "ok"] None (Some "any"))
    [statusFrame].
Proof.
  split.
  - apply (proj1 (unset_type_excludes_unset_match_is_any
             (Options.mk [equalsFilter "status" "ok"] None None) [statusFrame])).
    discriminate.
  - apply (proj2 (unset_type_excludes_unset_match_is_any
             (Options.mk [equalsFilter "status" "ok"] None None) [statusFrame])).
    discriminate.
Defined.

(** C4 at a single filter with an empty expression, whose instance is not
    valid. *)
Lemma no_applicable_filter_returns_input_sample :
  transformer (include_all [equalsFilter "status" ""]) [statusFrame] =
  Ok [statusFrame].
Proof.
  apply no_applicable_filter_returns_input. right.
  repeat constructor. intros field [= <-].
  exists equalsInfo. split; reflexivity.
Defined.

(** C5 at a filter of the unregistered kind [regex] on a field the frame
    has. *)
Lemma unknown_kind_is_the_only_failure_sample :
  ∃ e,
    transformer
      (include_all [ValueFilter.mk (Some "status") (Some "ok") None [] "regex"])
      [statusFrame] = Throw e.
Proof.
  apply unknown_kind_is_the_only_failure.
  eexists _, _. split_and!; [apply list_elem_of_here..|].
  eexists. split; reflexivity.
Defined.

(** C7 at the row (fail, b), which fails "status equals ok" and satisfies
    "host equals b". *)
Lemma any_include_keeps_row_of_second_filter_sample :
  (∃ out oframe,
     transformer
       (include_any [equalsFilter "status" "ok"; equalsFilter "host" "b"])
       [twoFieldFrame] = Ok out ∧
     out !! 0 = Some oframe ∧
     [VString "fail"; VString "b"] ∈ rows oframe) ∧
  (∀ includeRow filterIndex rest (d d' : JsArray.t),
     0 < filterIndex →
     JsArray.get d 1 = Some includeRow →
     filterLoop includeRow false twoFieldFrame filterIndex rest d = Ok d' →
     JsArray.get d' 1 = Some includeRow).
Proof.
  apply (any_include_keeps_row_of_second_filter
           (include_any [equalsFilter "status" "ok"; equalsFilter "host" "b"])
           [twoFieldFrame] 0 twoFieldFrame
           (equalsFilter "status" "ok") (equalsFilter "host" "b")
           (stringField "status" ["ok"; "fail"]) (stringField "host" ["a"; "b"])
           equalsInfo equalsInfo 1);
    first [reflexivity | cbn; lia].
Defined.

(** C8, on the code: the copying loop runs over the decision array, not over
    the frame.  After the four-row [statusFrame] has decided rows 0 and 2,
    the one-row [shortFrame] is returned with two rows, the second read past
    the end of its vector; its rows are not a subsequence of the input's. *)
Theorem rows_past_the_frame_are_copied :
  let copied :=
    DataFrame.mk
      [Field.mk "host" FieldType.string [] [VString "a"; VUndefined]] 2 in
  transformer (include_all [equalsFilter "status" "ok"]) [statusFrame; shortFrame] =
  Ok [DataFrame.mk [stringField "status" ["ok"; "ok"]] 2; copied] ∧
  rows shortFrame = [[VString "a"]] ∧
  rows copied = [[VString "a"]; [VUndefined]] ∧
  ¬ rows copied `sublist_of` rows shortFrame.
Proof.
  split_and!; [by vm_compute..|].
  intros Hsub%sublist_length. vm_compute in Hsub. lia.
Qed.

(** C9 at the two frames of C1. *)
Lemma output_keeps_field_shape_sample :
  let out :=
    [DataFrame.mk [stringField "status" ["ok"; "ok"]] 2;
     DataFrame.mk [stringField "host" ["a"; "c"]] 2] in
  Forall2 sameShape [statusFrame; hostFrame] out ∧
  (Forall wellFormed [statusFrame; hostFrame] → Forall wellFormed out).
Proof.
  apply (output_keeps_field_shape (include_all [equalsFilter "status" "ok"])).
  reflexivity.
Defined.

(** C10, on the code: with type include and match all, the transform is not
    idempotent on two frames.  The first call decides both rows of
    [allOkFrame] and then drops row 1 of [twoHostFrame]; the second call
    decides both rows of [allOkFrame] again and copies two rows out of the
    one-row frame the first call returned. *)
Theorem second_application_differs :
  let options :=
    include_all [equalsFilter "status" "ok"; equalsFilter "host" "a"] in
  let once := [allOkFrame; DataFrame.mk [stringField "host" ["a"]] 1] in
  let twice :=
    [allOkFrame;
     DataFrame.mk
       [Field.mk "host" FieldType.string [] [VString "a"; VUndefined]] 2] in
  transformer options [allOkFrame; twoHostFrame] = Ok once ∧
  transformer options once = Ok twice ∧
  once ≠ twice.
Proof. split_and!; [by vm_compute..|discriminate]. Qed.

End Sample.

(** ** More of the sample environment *)

Section SampleMore.
Local Existing Instance sampleEnvironment.
Local Existing Instance sampleEditor.

Lemma sample_registered filters :
  Forall (λ filter, ValueFilter.filterType filter = "equals") filters →
  registered filters.
Proof.
  intros Hkinds. eapply Forall_impl; [done|].
  intros filter ->. by eexists.
Qed.

(** X1 at two frames with the field [status], the shorter one first. *)
Lemma rows_kept_when_first_filter_applies_sample :
  ∃ out,
    transformer (include_all [equalsFilter "status" "ok"])
      [allOkFrame; statusFrame] = Ok out ∧
    Forall2
      (λ frame oframe,
         sameShape frame oframe ∧
         rows oframe =
         rowAt frame <$>
           keptRows true true frame [equalsFilter "status" "ok"])
      [allOkFrame; statusFrame] out.
Proof.
  apply (rows_kept_when_first_filter_applies
           (include_all [equalsFilter "status" "ok"])
           [allOkFrame; statusFrame] (equalsFilter "status" "ok") []).
  - reflexivity.
  - repeat constructor; eexists _, _; split_and!; reflexivity.
  - apply sample_registered. by repeat constructor.
  - cbn. lia.
Defined.

(** X2 at the frame of scenario A. *)
Lemma exclude_returns_what_include_drops_sample :
  ∃ included excluded,
    transformer
      (Options.mk [equalsFilter "status" "ok"] (Some "include") (Some "all"))
      [statusFrame] = Ok [included] ∧
    transformer
      (Options.mk [equalsFilter "status" "ok"] (Some "exclude") (Some "all"))
      [statusFrame] = Ok [excluded] ∧
    rows included ++ rows excluded ≡ₚ rows statusFrame.
Proof.
  apply (exclude_returns_what_include_drops
           [equalsFilter "status" "ok"] (Some "all") statusFrame
           (equalsFilter "status" "ok") []).
  - reflexivity.
  - eexists _, _. split_and!; reflexivity.
  - apply sample_registered. by repeat constructor.
Defined.

(** X3 at the default filter in front of "status equals ok". *)
Lemma skipped_first_filter_keeps_no_row_sample :
  ∃ oframe,
    transformer (include_all [defaultFilter; equalsFilter "status" "ok"])
      [statusFrame] = Ok [oframe] ∧
    (oframe = statusFrame ∨ DataFrame.length oframe = 0 ∧ rows oframe = []).
Proof.
  apply (skipped_first_filter_keeps_no_row
           (include_all [defaultFilter; equalsFilter "status" "ok"])
           statusFrame defaultFilter [equalsFilter "status" "ok"]).
  - reflexivity.
  - intros field Hfield. vm_compute in Hfield. discriminate.
  - apply sample_registered. by repeat constructor.
  - split; reflexivity.
Defined.

(** X4 at the default options. *)
Lemma filters_without_field_name_return_input_sample :
  transformer (include_all [defaultFilter]) [statusFrame; hostFrame] =
  Ok [statusFrame; hostFrame].
Proof.
  apply filters_without_field_name_return_input.
  repeat constructor.
Defined.

(** X5 at a frame without rows. *)
Lemma frames_without_rows_are_returned_sample :
  transformer (include_all [equalsFilter "status" "ok"]) [emptyFrame] =
  Ok [emptyFrame] ∨
  ∃ e,
    transformer (include_all [equalsFilter "status" "ok"]) [emptyFrame] =
    Throw e.
Proof.
  apply frames_without_rows_are_returned.
  repeat constructor.
Defined.

(** X6 at the name [host] in the frame with two fields. *)
Lemma getFieldByName_found_sample :
  ∃ name frame,
    Some "host" = Some name ∧ frame ∈ [twoFieldFrame] ∧
    stringField "host" ["a"; "b"] ∈ DataFrame.fields frame ∧
    getFieldDisplayNameIn (stringField "host" ["a"; "b"]) frame [twoFieldFrame] =
    name.
Proof.
  apply (getFieldByName_found (Some "host") [twoFieldFrame]).
  reflexivity.
Defined.

(** X9 at the option for [status]. *)
Lemma offered_names_resolve_sample :
  ∃ field,
    getFieldByName (Some "status") [statusFrame] = Some field ∧
    rowFieldType (Some "status") [statusFrame] = Field.type field.
Proof.
  apply (offered_names_resolve [statusFrame]
           (SelectableValue.mk "status" "status")).
  apply list_elem_of_here.
Defined.

(** X12 at a row whose expression is not set: the instance is not valid and
    the expression is the one marker set. *)
Lemma row_markers_exclude_each_other_sample :
  let flags :=
    {| fieldNameInvalid := false; filterTypeInvalid := false;
       filterExpressionInvalid := true |} in
  (fieldNameInvalid flags = true →
   filterTypeInvalid flags = false ∧ filterExpressionInvalid flags = false) ∧
  (filterTypeInvalid flags = true → filterExpressionInvalid flags = false) ∧
  (filterExpressionInvalid flags = true →
   ∃ info,
     valueFiltersRegistry !! "equals" = Some info ∧
     isValid
       (getInstance info
          (InstanceOptions.mk None None [] FieldType.string)) = false).
Proof.
  apply (row_markers_exclude_each_other
           (fieldNameOptions [statusFrame])
           (ValueFilter.mk (Some "status") None None [] "equals")
           FieldType.string).
  reflexivity.
Defined.

(** X13 at the two orders of "status equals ok" and "host equals b". *)
Lemma order_matters_only_at_index_0_sample :
  ∃ out,
    transformer
      (include_all [equalsFilter "status" "ok"; equalsFilter "host" "b"])
      [twoFieldFrame] = Ok out ∧
    transformer
      (include_all [equalsFilter "host" "b"; equalsFilter "status" "ok"])
      [twoFieldFrame] = Ok out.
Proof.
  apply (order_matters_only_at_index_0 (Some "include") (Some "all")
           twoFieldFrame
           (equalsFilter "status" "ok") [equalsFilter "host" "b"]
           (equalsFilter "host" "b") [equalsFilter "status" "ok"]).
  - apply perm_swap.
  - eexists _, _. split_and!; reflexivity.
  - eexists _, _. split_and!; reflexivity.
  - apply sample_registered. by repeat constructor.
Defined.

(** X15 at the two frames of C8. *)
Lemma first_frame_rows_sublist_sample :
  rows (DataFrame.mk [stringField "status" ["ok"; "ok"]] 2)
    `sublist_of` rows statusFrame.
Proof.
  apply (first_frame_rows_sublist (include_all [equalsFilter "status" "ok"])
           statusFrame [shortFrame] _
           [DataFrame.mk
              [Field.mk "host" FieldType.string [] [VString "a"; VUndefined]] 2]).
  reflexivity.
Defined.

Lemma sample_display_name : displayNameIgnoresValues.
Proof. intros field values. reflexivity. Qed.

(** X16 at the frame of scenario A. *)
Lemma single_frame_idempotent_sample :
  transformer (include_all [equalsFilter "status" "ok"])
    [DataFrame.mk [stringField "status" ["ok"; "ok"]] 2] =
  Ok [DataFrame.mk [stringField "status" ["ok"; "ok"]] 2].
Proof.
  apply (single_frame_idempotent sample_display_name
           (include_all [equalsFilter "status" "ok"]) statusFrame);
    reflexivity.
Defined.

End SampleMore.
